(** * Firefly controller manager: a shallow embedding of the bootstrap core

    This development embeds the Go code of the firefly controller manager
    ([cmd/controller-manager/app], [StartControllers], [Run],
    [CreateControllerContext], [GetAvailableResources], [ResyncPeriod], the
    command's [Args] validator) and of the clusterpedia controller's
    [EnsureInternalStorage], and proves the properties stated in the
    specification about them.

    Conventions of the embedding:
    - a Go [error] is [option error] ([None] is [nil]);
    - a Go pointer or interface that may be [nil] is an [option];
    - a Go map with [bool] values is a [gmap];
    - effects (goroutine spawns, channel receives and closes, informer
      starts, HTTP handler registration, health-check registration,
      initializer calls, [klog.Fatalf]) are events appended to a trace
      threaded through a small state monad [M]; channel receives whose
      sender lives outside the modelled goroutine are settled by an
      environment flag ([true]: the value arrives, [false]: the goroutine
      blocks forever);
    - Go's [float64] is Rocq's primitive binary64 [float]. *)

From Stdlib Require Import ZArith Floats.
From stdpp Require Import base list gmap strings.

Open Scope Z_scope.

(* ------------------------------------------------------------------ *)
(** ** Errors *)

(** The error values the modelled code creates, one constructor per
    [fmt.Errorf] site; errors produced by external collaborators
    (initializers, discovery clients, the API server health wait) are
    [ErrExternal]. *)
Inductive error :=
| ErrExternal (tag : string)
  (** [fmt.Errorf("%q does not take any arguments, got %q", cmd.CommandPath(), args)] *)
| ErrTakesNoArguments (cmd_path : string) (args : list string)
  (** [fmt.Errorf("unable to get any supported resources from server")] *)
| ErrNoSupportedResources
  (** [fmt.Errorf("unexpected GroupVersion string: %v", gv)] *)
| ErrUnexpectedGroupVersion (gv : string)
  (** [fmt.Errorf("failed to wait for apiserver being healthy: %v", err)] *)
| ErrWaitForAPIServer (cause : error)
  (** [fmt.Errorf("unknown storage type")] *)
| ErrUnknownStorageType.

(* ------------------------------------------------------------------ *)
(** ** The command's positional-argument validator ([NewControllerManagerCommand]) *)

Module Command.

(** [Args: func(cmd *cobra.Command, args []string) error]:
    the first argument with [len(arg) > 0] rejects the whole list. *)
Fixpoint Args_loop (cmd_path : string) (all : list string) (args : list string)
  : option error :=
  match args with
  | [] => None
  | arg :: rest =>
      if (0 <? String.length arg)%nat
      then Some (ErrTakesNoArguments cmd_path all)
      else Args_loop cmd_path all rest
  end.

Definition Args (cmd_path : string) (args : list string) : option error :=
  Args_loop cmd_path args args.

End Command.

(* ------------------------------------------------------------------ *)
(** ** Clusterpedia internal storage ([clusterpedia_internelstorage.go]) *)

Module Clusterpedia.

Section EnsureInternalStorage.

(** The [Local] sections of the storage specs (declared in the install API
    package) are opaque to [EnsureInternalStorage]: only their presence
    is tested. *)
Variable LocalPostgres LocalMySQL : Type.

Record PostgresStorage := { PostgresLocal : option LocalPostgres }.
Record MySQLStorage := { MySQLLocal : option LocalMySQL }.
Record Storage := {
  Postgres : option PostgresStorage;
  MySQL : option MySQLStorage
}.
Record ClusterpediaSpec := { Storage_ : Storage }.
Record Clusterpedia := { Spec : ClusterpediaSpec }.

(** The controller's [EnsurePostgres] and [EnsureMySQL] methods. *)
Variable EnsurePostgres EnsureMySQL : Clusterpedia -> option error.

(** [storage.Postgres != nil && storage.Postgres.Local != nil] *)
Definition postgres_local_set (storage : Storage) : bool :=
  match Postgres storage with
  | Some pg => if PostgresLocal pg then true else false
  | None => false
  end.

(** [storage.MySQL != nil && storage.MySQL.Local != nil] *)
Definition mysql_local_set (storage : Storage) : bool :=
  match MySQL storage with
  | Some my => if MySQLLocal my then true else false
  | None => false
  end.

(** [func (ctrl *ClusterpediaController) EnsureInternalStorage(clusterpedia) error]:
    a tagless [switch] whose first true case wins. *)
Definition EnsureInternalStorage (clusterpedia : Clusterpedia) : option error :=
  let storage := Storage_ (Spec clusterpedia) in
  if postgres_local_set storage then EnsurePostgres clusterpedia
  else if mysql_local_set storage then EnsureMySQL clusterpedia
  else Some ErrUnknownStorageType.

End EnsureInternalStorage.

End Clusterpedia.

(* ------------------------------------------------------------------ *)
(** ** Resource discovery ([GetAvailableResources]) *)

Module Discovery.

(** [schema.GroupVersion] *)
Record GroupVersion := { Group : string; Version : string }.

(** [schema.GroupVersionResource] *)
Record GroupVersionResource := {
  GVR_Group : string; GVR_Version : string; GVR_Resource : string
}.

#[global] Instance GroupVersionResource_eq_dec : EqDecision GroupVersionResource.
Proof. solve_decision. Defined.

#[global] Program Instance GroupVersionResource_countable : Countable GroupVersionResource :=
  inj_countable' (fun g => (GVR_Group g, GVR_Version g, GVR_Resource g))
                 (fun '(g, v, r) => Build_GroupVersionResource g v r) _.
Next Obligation. by intros []. Qed.

(** [gv.WithResource(resource)] *)
Definition WithResource (gv : GroupVersion) (resource : string) : GroupVersionResource :=
  {| GVR_Group := Group gv; GVR_Version := Version gv; GVR_Resource := resource |}.

(** [metav1.APIResource], reduced to the field the code reads. *)
Record APIResource := { Name : string }.

(** [metav1.APIResourceList] *)
Record APIResourceList := {
  GroupVersion_ : string;
  APIResources : list APIResource
}.

Definition slash : Ascii.ascii := Ascii.ascii_of_nat 47.

(** [strings.Count(gv, "/")] *)
Fixpoint count_slash (s : string) : nat :=
  match s with
  | EmptyString => 0
  | String c rest => (if Ascii.eqb c slash then 1 else 0) + count_slash rest
  end.

(** [i := strings.Index(gv, "/"); gv[:i], gv[i+1:]] *)
Fixpoint split_at_slash (s : string) : string * string :=
  match s with
  | EmptyString => (EmptyString, EmptyString)
  | String c rest =>
      if Ascii.eqb c slash then (EmptyString, rest)
      else let '(a, b) := split_at_slash rest in (String c a, b)
  end.

Definition zero_GroupVersion : GroupVersion := {| Group := ""; Version := "" |}.

(** [gv.String()] of apimachinery's [schema.GroupVersion]: how a server
    prints the [GroupVersion] field of an [APIResourceList]. *)
Definition GroupVersion_String (gv : GroupVersion) : string :=
  if (0 <? String.length (Group gv))%nat
  then String.append (Group gv) (String slash (Version gv))
  else Version gv.

(** [schema.ParseGroupVersion] of apimachinery, which the discovery code
    calls on every returned [GroupVersion] string:
    the empty string and ["/"] are the legacy internal version, no ['/']
    is a core-group version, one ['/'] splits group and version, and
    more than one is an error. *)
Definition ParseGroupVersion (gv : string) : GroupVersion * option error :=
  if ((String.length gv =? 0)%nat || String.eqb gv (String slash EmptyString))%bool
  then (zero_GroupVersion, None)
  else match count_slash gv with
       | 0%nat => ({| Group := ""; Version := gv |}, None)
       | 1%nat => let '(g, v) := split_at_slash gv in ({| Group := g; Version := v |}, None)
       | _ => (zero_GroupVersion, Some (ErrUnexpectedGroupVersion gv))
       end.

(** [for _, apiResource := range apiResourceList.APIResources {
      allResources[version.WithResource(apiResource.Name)] = true }] *)
Fixpoint add_resources (version : GroupVersion) (rs : list APIResource)
    (allResources : gmap GroupVersionResource bool) : gmap GroupVersionResource bool :=
  match rs with
  | [] => allResources
  | r :: rest => add_resources version rest (<[WithResource version (Name r) := true]> allResources)
  end.

(** [for _, apiResourceList := range resourceMap { ... }], with the early
    [return nil, err] on an unparsable group version. *)
Fixpoint collect_resources (resourceMap : list APIResourceList)
    (allResources : gmap GroupVersionResource bool)
  : gmap GroupVersionResource bool * option error :=
  match resourceMap with
  | [] => (allResources, None)
  | l :: rest =>
      let '(version, err) := ParseGroupVersion (GroupVersion_ l) in
      match err with
      | Some e => (∅, Some e)
      | None => collect_resources rest (add_resources version (APIResources l) allResources)
      end
  end.

(** [func GetAvailableResources(client discovery.DiscoveryInterface)
      (map[schema.GroupVersionResource]bool, error)].
    The argument is what [client.ServerGroupsAndResources()] returned
    (its group list is discarded by the code): the resource lists and the
    possibly partial error. That error is only reported through
    [utilruntime.HandleError], a log side effect. A [nil] map is [∅]. *)
Definition GetAvailableResources
    (discovered : list APIResourceList * option error)
  : gmap GroupVersionResource bool * option error :=
  let '(resourceMap, _err) := discovered in
  if (length resourceMap =? 0)%nat then (∅, Some ErrNoSupportedResources)
  else collect_resources resourceMap ∅.

(** *** Observations on discovery answers *)

(** The resources one list contributes under the version [v]. *)
Definition in_resources (v : GroupVersion) (rs : list APIResource) (k : GroupVersionResource) : Prop :=
  exists r, r ∈ rs /\ k = WithResource v (Name r).

(** The resources a discovery answer contributes. *)
Definition in_resource_lists (ls : list APIResourceList) (k : GroupVersionResource) : Prop :=
  Exists (fun l => in_resources (ParseGroupVersion (GroupVersion_ l)).1 (APIResources l) k) ls.

(** The group version of a list parses. *)
Definition parses (l : APIResourceList) : Prop := (ParseGroupVersion (GroupVersion_ l)).2 = None.

End Discovery.

(* ------------------------------------------------------------------ *)
(** ** The controller manager ([cmd/controller-manager/app]) *)

Module App.
Import Discovery.

(** *** Effects: a trace of events threaded through a state monad *)

Definition handler := nat.
Definition checker := nat.

(** The health checks handed to [healthzHandler.AddHealthChecker]. *)
Inductive HealthChecker :=
| NamedPingChecker (name : string)
| NamedHealthChecker (name : string) (check : checker).

(** The informer factories of a [ControllerContext]. *)
Inductive factory_kind :=
| KarmadaDynamic | KarmadaKube | KarmadaFirefly | Karmada
| FireflyDynamic | FireflyKube | Firefly | KarmadaMetadata | ObjectOrMetadata.

(** Channels: the process stop channel, the leadership context's [Done]
    channel, the leader migrator's [MigrationReady], and the channels
    made by [make(chan struct{})], numbered in creation order. *)
Inductive chan := ChStop | ChCtxDone | ChMigrationReady | ChMade (n : nat).

#[global] Instance chan_eq_dec : EqDecision chan.
Proof. solve_decision. Defined.

Inductive lock := MainLock | MigrationLock.

Inductive event :=
| EvServe                                    (** [c.SecureServing.Serve] *)
| EvGoResetRESTMapper                        (** [go wait.Until(restMapper.Reset, ...)] *)
| EvInvoke (name : string)                   (** [initFn(ctx, controllerCtx)] is called *)
| EvReturn (name : string)                   (** ... and has returned *)
| EvUnlistedHandle (path : string)           (** [unsecuredMux.UnlistedHandle] *)
| EvUnlistedHandlePrefix (path : string)     (** [unsecuredMux.UnlistedHandlePrefix] *)
| EvAddHealthChecker (checks : list HealthChecker)  (** [healthzHandler.AddHealthChecker] *)
| EvMakeChan (c : chan)                      (** [make(chan struct{})] *)
| EvStart (f : factory_kind)                 (** [factory.Start(stopCh)] *)
| EvClose (c : chan)                         (** [close(c)] *)
| EvRecv (c : chan)                          (** [<-c] has received *)
| EvGoLeaderElect (l : lock)                 (** [go leaderElectAndRun(...)] *)
| EvFatal.                                   (** [klog.Fatalf] *)

(** How a computation of the modelled goroutine ends. *)
Inductive outcome (A : Type) :=
| Ret (a : A)
| Exit (code : Z)   (** process exit ([klog.Fatalf] exits with 255) *)
| Panic             (** Go run-time panic *)
| Blocked.          (** blocked forever on a channel receive *)
Arguments Ret {A} a.
Arguments Exit {A} code.
Arguments Panic {A}.
Arguments Blocked {A}.

Abbreviation trace := (list event).
Definition M (A : Type) : Type := trace -> trace * outcome A.

#[global] Instance M_ret : MRet M := fun A a tr => (tr, Ret a).
#[global] Instance M_bind : MBind M := fun A B k m tr =>
  match m tr with
  | (tr', Ret a) => k a tr'
  | (tr', Exit c) => (tr', Exit c)
  | (tr', Panic) => (tr', Panic)
  | (tr', Blocked) => (tr', Blocked)
  end.

Definition emit (e : event) : M unit := fun tr => (tr ++ [e], Ret tt).
Definition fatal {A} : M A := fun tr => (tr ++ [EvFatal], Exit 255).
Definition block {A} : M A := fun tr => (tr, Blocked).
Definition panic {A} : M A := fun tr => (tr, Panic).

(** [<-c]: [arrives] says whether another goroutine ever sends on or
    closes [c]. *)
Definition recv (c : chan) (arrives : bool) : M unit :=
  if arrives then emit (EvRecv c) else block.

Definition is_make (e : event) : bool :=
  match e with EvMakeChan _ => true | _ => false end.

(** [make(chan struct{})]: a channel distinct from every earlier one. *)
Definition make_chan : M chan := fun tr =>
  let c := ChMade (length (filter is_make tr)) in (tr ++ [EvMakeChan c], Ret c).

Definition closes (c : chan) (e : event) : bool :=
  match e with EvClose c' => bool_decide (c = c') | _ => false end.

(** [close(c)]: closing a [nil] or an already closed channel panics. *)
Definition close (c : option chan) : M unit :=
  match c with
  | None => panic
  | Some c => fun tr =>
      if existsb (closes c) tr then (tr, Panic) else (tr ++ [EvClose c], Ret tt)
  end.

(** *** Configuration *)

Record GenericConfiguration := {
  MinResyncPeriod : Z;            (** [MinResyncPeriod.Nanoseconds()] *)
  Controllers : list string;
  LeaderElect : bool;             (** [LeaderElection.LeaderElect] *)
  LeaderMigrationEnabled : bool   (** what [leadermigration.Enabled] reads *)
}.

Record ComponentConfiguration := { Generic : GenericConfiguration }.

Definition zero_ComponentConfiguration : ComponentConfiguration :=
  {| Generic := {| MinResyncPeriod := 0; Controllers := [];
                   LeaderElect := false; LeaderMigrationEnabled := false |} |}.

Module Config.
(** [config.CompletedConfig], the fields the modelled code reads. *)
Record CompletedConfig := {
  ComponentConfig : ComponentConfiguration;
  EstimatorNamespace : string;
  KarmadaName : string;
  KarmadaKubeconfig : string;
  FireflyKubeconfig : string;
  SecureServing : bool            (** [c.SecureServing != nil] *)
}.
End Config.
Import Config (CompletedConfig).

(** *** [ResyncPeriod] *)

Definition two63 : Z := 2 ^ 63.

(** Go's [float64(x)] for an [int64] [x], rounding to nearest even. *)
Definition float_of_int64 (z : Z) : float :=
  if z =? - two63 then (- (PrimFloat.of_uint63 (Uint63.of_Z (2 ^ 62)) * 2))%float
  else if z <? 0 then (- PrimFloat.of_uint63 (Uint63.of_Z (- z)))%float
  else PrimFloat.of_uint63 (Uint63.of_Z z).

(** Go's [time.Duration(f)] (an [int64] conversion): truncation toward
    zero. The Go specification leaves a value outside the [int64] range
    implementation-defined; on amd64 ([CVTTSD2SI]) such a value, and an
    infinity or a NaN, gives [math.MinInt64]. *)
Definition int64_of_float (f : float) : Z :=
  match FloatOps.Prim2SF f with
  | SpecFloat.S754_zero _ => 0
  | SpecFloat.S754_finite s m e =>
      let v := if 0 <=? e then Z.shiftl (Zpos m) e else Z.shiftr (Zpos m) (- e) in
      let z := if s then - v else v in
      if ((- two63 <=? z) && (z <? two63))%bool then z else - two63
  | _ => - two63
  end.

(** [rand.Float64()]: [float64(r.Int63()) / (1 << 63)], drawn again when
    the quotient rounds to [1]; [None] stands for that redraw. *)
Definition Float64_of_Int63 (x : Z) : option float :=
  let f := (float_of_int64 x / float_of_int64 (2 ^ 62) / 2)%float in
  if PrimFloat.ltb f 1 then Some f else None.

(** [ResyncPeriod(c)]: the closure, given the value [rand.Float64()]
    returns at its invocation. *)
Definition ResyncPeriod (c : CompletedConfig) : float -> Z := fun draw =>
  let factor := (draw + 1)%float in
  int64_of_float
    (float_of_int64 (MinResyncPeriod (Generic (Config.ComponentConfig c))) * factor)%float.

(** *** [ControllerContext] and its construction *)

Record InformerFactory := {
  factory_kind_ : factory_kind;
  factory_resync : Z              (** the default resync the factory was built with *)
}.

Definition ClientBuilder := string.  (** the kubeconfig a client builder wraps *)

Record ControllerContext := {
  KarmadaClientBuilder : option ClientBuilder;
  FireflyClientBuilder : option ClientBuilder;
  KarmadaDynamicInformerFactory : option InformerFactory;
  KarmadaKubeInformerFactory : option InformerFactory;
  KarmadaFireflyInformerFactory : option InformerFactory;
  KarmadaInformerFactory : option InformerFactory;
  FireflyDynamicInformerFactory : option InformerFactory;
  FireflyKubeInformerFactory : option InformerFactory;
  FireflyInformerFactory : option InformerFactory;
  EstimatorNamespace : string;
  KarmadaName : string;
  ObjectOrMetadataInformerFactory : option InformerFactory;
  ComponentConfig : ComponentConfiguration;
  RESTMapper : option string;     (** the discovery client it defers to *)
  AvailableResources : gmap GroupVersionResource bool;
  HostClusterAvailableResources : gmap GroupVersionResource bool;
  InformersStarted : option chan;
  ResyncPeriod_ : option (float -> Z)
}.

(** [ControllerContext{}] *)
Definition zero_ControllerContext : ControllerContext := {|
  KarmadaClientBuilder := None; FireflyClientBuilder := None;
  KarmadaDynamicInformerFactory := None; KarmadaKubeInformerFactory := None;
  KarmadaFireflyInformerFactory := None; KarmadaInformerFactory := None;
  FireflyDynamicInformerFactory := None; FireflyKubeInformerFactory := None;
  FireflyInformerFactory := None; EstimatorNamespace := ""; KarmadaName := "";
  ObjectOrMetadataInformerFactory := None;
  ComponentConfig := zero_ComponentConfiguration; RESTMapper := None;
  AvailableResources := ∅; HostClusterAvailableResources := ∅;
  InformersStarted := None; ResyncPeriod_ := None |}.

(** What the outside world answers to the modelled code. *)
Record Env := {
  env_draw : nat -> float;        (** the successive values of [rand.Float64()] *)
  env_wait_karmada : option error;  (** [WaitForAPIServer(karmadaKubeClient, 10s)] *)
  env_wait_firefly : option error;  (** [WaitForAPIServer(fireflyKubeClient, 10s)] *)
  env_karmada_discovery : list APIResourceList * option error;
      (** [ServerGroupsAndResources()] on the karmada API server *)
  env_host_discovery : list APIResourceList * option error;
      (** [ServerGroupsAndResources()] on the host cluster *)
  env_serve : option error;       (** [c.SecureServing.Serve(...)] *)
  env_hostname : string + error;  (** [os.Hostname()] *)
  env_ctx_done : bool;            (** the epoch's context is eventually cancelled *)
  env_stop : bool;                (** [stopCh] is eventually closed *)
  env_migration_ready : bool      (** [leaderMigrator.MigrationReady] eventually fires *)
}.

(** [func CreateControllerContext(s, karmadaClientBuilder, fireflyKubeClientBuilder, stop)
      (ControllerContext, error)]. [ResyncPeriod(s)()] is evaluated once per
    informer factory, each with its own draw. *)
Definition CreateControllerContext (s : CompletedConfig) (env : Env)
  : M (ControllerContext * option error) :=
  let resync i := ResyncPeriod s (env_draw env i) in
  let karmadaKubeSharedInformers := {| factory_kind_ := KarmadaKube; factory_resync := resync 0%nat |} in
  let karmadaDynamicSharedInformers := {| factory_kind_ := KarmadaDynamic; factory_resync := resync 1%nat |} in
  let karmadaFireflySharedInformers := {| factory_kind_ := KarmadaFirefly; factory_resync := resync 2%nat |} in
  let karmadaSharedInformers := {| factory_kind_ := Karmada; factory_resync := resync 3%nat |} in
  let metadataInformers := {| factory_kind_ := KarmadaMetadata; factory_resync := resync 4%nat |} in
  match env_wait_karmada env with
  | Some err => mret (zero_ControllerContext, Some (ErrWaitForAPIServer err))
  | None =>
  let fireflyKubeSharedInformers := {| factory_kind_ := FireflyKube; factory_resync := resync 5%nat |} in
  let fireflyDynamicSharedInformers := {| factory_kind_ := FireflyDynamic; factory_resync := resync 6%nat |} in
  let fireflySharedInformers := {| factory_kind_ := Firefly; factory_resync := resync 7%nat |} in
  match env_wait_firefly env with
  | Some err => mret (zero_ControllerContext, Some (ErrWaitForAPIServer err))
  | None =>
  _ ← emit EvGoResetRESTMapper;
  let '(availableResources, err) := GetAvailableResources (env_karmada_discovery env) in
  match err with
  | Some err => mret (zero_ControllerContext, Some err)
  | None =>
  let '(hostClusterAvailableResources, err) := GetAvailableResources (env_host_discovery env) in
  match err with
  | Some err => mret (zero_ControllerContext, Some err)
  | None =>
  informersStarted ← make_chan;
  mret ({|
    KarmadaClientBuilder := Some (Config.KarmadaKubeconfig s);
    FireflyClientBuilder := Some (Config.FireflyKubeconfig s);
    KarmadaDynamicInformerFactory := Some karmadaDynamicSharedInformers;
    KarmadaKubeInformerFactory := Some karmadaKubeSharedInformers;
    KarmadaFireflyInformerFactory := Some karmadaFireflySharedInformers;
    KarmadaInformerFactory := Some karmadaSharedInformers;
    FireflyDynamicInformerFactory := Some fireflyDynamicSharedInformers;
    FireflyKubeInformerFactory := Some fireflyKubeSharedInformers;
    FireflyInformerFactory := Some fireflySharedInformers;
    ObjectOrMetadataInformerFactory :=
      Some {| factory_kind_ := ObjectOrMetadata; factory_resync := factory_resync metadataInformers |};
    ComponentConfig := Config.ComponentConfig s;
    EstimatorNamespace := Config.EstimatorNamespace s;
    KarmadaName := Config.KarmadaName s;
    RESTMapper := Some "firelfy-controller-discovery";
    AvailableResources := availableResources;
    HostClusterAvailableResources := hostClusterAvailableResources;
    InformersStarted := Some informersStarted;
    ResyncPeriod_ := Some (ResyncPeriod s) |}, None)
  end end end end.

(** *** [StartControllers] *)

(** [ControllersDisabledByDefault = sets.NewString()] *)
Definition ControllersDisabledByDefault : list string := [].

(** [genericcontrollermanager.IsControllerEnabled(name, disabledByDefault, controllers)]:
    an explicit [name] or ["-name"] decides, the first one met winning;
    otherwise ["*"] enables every controller not disabled by default. *)
Fixpoint IsControllerEnabled_loop (name : string) (controllers : list string) (hasStar : bool)
  : bool :=
  match controllers with
  | [] => hasStar && negb (bool_decide (name ∈ ControllersDisabledByDefault))
  | ctrl :: rest =>
      if String.eqb ctrl name then true
      else if String.eqb ctrl (String (Ascii.ascii_of_nat 45) name) then false
      else IsControllerEnabled_loop name rest (hasStar || String.eqb ctrl "*")
  end.

(** [func (c ControllerContext) IsControllerEnabled(name string) bool] *)
Definition IsControllerEnabled (c : ControllerContext) (name : string) : bool :=
  IsControllerEnabled_loop name (Controllers (Generic (ComponentConfig c))) false.

(** The controller value an initializer returns ([controller.Interface]),
    seen through the two optional capabilities the supervisor asserts:
    [ctrl.(controller.Debuggable)] with the handler [DebuggingHandler()]
    returns, and [ctrl.(controller.HealthCheckable)] with the checker
    [HealthChecker()] returns; [None] is a failed type assertion or a
    [nil] result. *)
Record Controller := {
  debuggable : option (option handler);
  health_checkable : option (option checker)
}.

(** [InitFn]: an initializer, by the triple [(controller, enabled, err)]
    it returns for a context. *)
Definition InitFn := ControllerContext -> option Controller * bool * option error.

(** The body of the loop after a successful start: mount the debug
    handler when there is one and a mux to mount it on, and pick the
    health check. *)
Definition controller_check (controllerName : string) (ctrl : option Controller) (mux : bool)
  : M HealthChecker :=
  match ctrl with
  | None => mret (NamedPingChecker controllerName)
  | Some c =>
      _ ← (match debuggable c with
           | Some (Some _) =>
               if mux then
                 let basePath := String.append "/debug/controllers/" controllerName in
                 _ ← emit (EvUnlistedHandle basePath);
                 emit (EvUnlistedHandlePrefix (String.append basePath "/"))
               else mret tt
           | _ => mret tt
           end);
      mret (match health_checkable c with
            | Some (Some realCheck) => NamedHealthChecker controllerName realCheck
            | _ => NamedPingChecker controllerName
            end)
  end.

(** [for controllerName, initFn := range controllers { ... }]: the list is
    the order in which Go's map iteration visits the registry; [inl] is
    the early [return err]. The jittered [time.Sleep] before each start
    and the log lines are not modelled. *)
Fixpoint start_loop (controllerCtx : ControllerContext) (controllers : list (string * InitFn))
    (mux : bool) (controllerChecks : list HealthChecker) : M (error + list HealthChecker) :=
  match controllers with
  | [] => mret (inr controllerChecks)
  | (controllerName, initFn) :: rest =>
      if negb (IsControllerEnabled controllerCtx controllerName)
      then start_loop controllerCtx rest mux controllerChecks
      else
        _ ← emit (EvInvoke controllerName);
        let '(ctrl, started, err) := initFn controllerCtx in
        _ ← emit (EvReturn controllerName);
        match err with
        | Some err => mret (inl err)
        | None =>
            if negb started then start_loop controllerCtx rest mux controllerChecks
            else
              check ← controller_check controllerName ctrl mux;
              start_loop controllerCtx rest mux (controllerChecks ++ [check])
        end
  end.

(** [func StartControllers(ctx, controllerCtx, controllers, unsecuredMux, healthzHandler) error];
    [mux] is [unsecuredMux != nil]. *)
Definition StartControllers (controllerCtx : ControllerContext)
    (controllers : list (string * InitFn)) (mux : bool) : M (option error) :=
  r ← start_loop controllerCtx controllers mux [];
  match r with
  | inl err => mret (Some err)
  | inr controllerChecks =>
      _ ← emit (EvAddHealthChecker controllerChecks);
      mret None
  end.

(** *** [Run] *)

(** The [run] closure of [Run]: one leadership epoch. *)
Definition run (c : CompletedConfig) (env : Env) (mux : bool)
    (controllerInitializers : list (string * InitFn)) : M unit :=
  r ← CreateControllerContext c env;
  let '(controllerContext, err) := r in
  match err with
  | Some _ => fatal
  | None =>
      err ← StartControllers controllerContext controllerInitializers mux;
      match err with
      | Some _ => fatal
      | None =>
          _ ← emit (EvStart KarmadaDynamic);
          _ ← emit (EvStart KarmadaKube);
          _ ← emit (EvStart Karmada);
          _ ← emit (EvStart KarmadaFirefly);
          _ ← emit (EvStart FireflyDynamic);
          _ ← emit (EvStart FireflyKube);
          _ ← emit (EvStart Firefly);
          _ ← emit (EvStart ObjectOrMetadata);
          _ ← close (InformersStarted controllerContext);
          recv ChCtxDone (env_ctx_done env)
      end
  end.

(** [leadermigration.FilterResult] *)
Inductive FilterResult := ControllerMigrated | ControllerNonMigrated | ControllerUnowned.

#[global] Instance FilterResult_eq_dec : EqDecision FilterResult.
Proof. solve_decision. Defined.

(** [createInitializersFunc(filterFunc, expected)] applied to the registry. *)
Definition createInitializersFunc (filterFunc : string -> FilterResult) (expected : FilterResult)
    (initializers : list (string * InitFn)) : list (string * InitFn) :=
  filter (fun p => bool_decide (filterFunc p.1 = expected)) initializers.

(** The main lock's [OnStartedLeading], run by the election goroutine. *)
Definition OnStartedLeading_main (c : CompletedConfig) (env : Env)
    (NewControllerInitializers : list (string * InitFn)) (filterFunc : string -> FilterResult)
  : M unit :=
  let initializersFunc :=
    if LeaderMigrationEnabled (Generic (Config.ComponentConfig c))
    then createInitializersFunc filterFunc ControllerNonMigrated NewControllerInitializers
    else NewControllerInitializers in
  run c env (Config.SecureServing c) initializersFunc.

(** The migration lock's [OnStartedLeading]. *)
Definition OnStartedLeading_migration (c : CompletedConfig) (env : Env)
    (NewControllerInitializers : list (string * InitFn)) (filterFunc : string -> FilterResult)
  : M unit :=
  run c env (Config.SecureServing c)
    (createInitializersFunc filterFunc ControllerMigrated NewControllerInitializers).

(** [func Run(c *config.CompletedConfig, stopCh <-chan struct{}) error], the
    goroutine that calls it. The election goroutines it spawns appear as
    [EvGoLeaderElect] events; their callbacks are the two definitions
    above. Event broadcasting, configz and health-handler setup are not
    modelled. *)
Definition Run (c : CompletedConfig) (env : Env)
    (NewControllerInitializers : list (string * InitFn)) (filterFunc : string -> FilterResult)
  : M (option error) :=
  let mux := Config.SecureServing c in
  served ← (if mux then
              match env_serve env with
              | Some err => mret (Some err)
              | None => _ ← emit EvServe; mret None
              end
            else mret None);
  match served with
  | Some err => mret (Some err)
  | None =>
      if negb (LeaderElect (Generic (Config.ComponentConfig c))) then
        _ ← run c env mux NewControllerInitializers;
        mret None
      else
        match env_hostname env with
        | inr err => mret (Some err)
        | inl _ =>
            let leaderMigrator := LeaderMigrationEnabled (Generic (Config.ComponentConfig c)) in
            _ ← emit (EvGoLeaderElect MainLock);
            _ ← (if leaderMigrator then
                   _ ← recv ChMigrationReady (env_migration_ready env);
                   emit (EvGoLeaderElect MigrationLock)
                 else mret tt);
            _ ← recv ChStop (env_stop env);
            mret None
        end
  end.

(** *** Observations on traces *)

(** Events the registry loop of [StartControllers] emits. *)
Definition is_loop_event (e : event) : bool :=
  match e with
  | EvInvoke _ | EvReturn _ | EvUnlistedHandle _ | EvUnlistedHandlePrefix _ => true
  | _ => false
  end.

Definition is_init_call (e : event) : bool :=
  match e with EvInvoke _ | EvReturn _ => true | _ => false end.

Definition is_start (e : event) : bool :=
  match e with EvStart _ => true | _ => false end.

Definition is_close (e : event) : bool :=
  match e with EvClose _ => true | _ => false end.

Definition is_add_health_checker (e : event) : bool :=
  match e with EvAddHealthChecker _ => true | _ => false end.

(** The informer factories [run] starts, in its order. *)
Definition started_factories : list factory_kind :=
  [KarmadaDynamic; KarmadaKube; Karmada; KarmadaFirefly;
   FireflyDynamic; FireflyKube; Firefly; ObjectOrMetadata].

(** A trace closes only channels it has made: what every execution of
    the modelled code leaves behind. *)
Definition closes_only_made (tr : trace) : bool :=
  forallb (fun e => match e with
                    | EvClose (ChMade k) => Nat.ltb k (length (filter is_make tr))
                    | _ => true
                    end) tr.

(** The health check the specification assigns to a started controller:
    its own checker when it is health-checkable with a non-[nil] checker,
    otherwise the named ping check. *)
Definition spec_health_check (name : string) (ctrl : option Controller) : HealthChecker :=
  match ctrl with
  | Some c =>
      match health_checkable c with
      | Some (Some chk) => NamedHealthChecker name chk
      | _ => NamedPingChecker name
      end
  | None => NamedPingChecker name
  end.

(** The checks the specification expects from a registry: one per enabled
    controller whose initializer reports [started], none otherwise. *)
Definition spec_health_checks (controllerCtx : ControllerContext)
    (controllers : list (string * InitFn)) : list HealthChecker :=
  flat_map (fun p =>
    let '(ctrl, started, _) := p.2 controllerCtx in
    if IsControllerEnabled controllerCtx p.1 && started
    then [spec_health_check p.1 ctrl] else []) controllers.

(** The names of the initializers a trace invokes, in order. *)
Definition invoked (t : trace) : list string :=
  omap (fun e => match e with EvInvoke n => Some n | _ => None end) t.

(** The names of the registry's entries [IsControllerEnabled] accepts, in
    registry order. *)
Definition enabled_names (controllerCtx : ControllerContext)
    (controllers : list (string * InitFn)) : list string :=
  (filter (fun p => IsControllerEnabled controllerCtx p.1 = true) controllers).*1.

(** The path where [StartControllers] mounts a controller's debug handler. *)
Definition debug_path (name : string) : string := String.append "/debug/controllers/" name.

(** Every debug handler in [t] is mounted at the path of a controller
    called in [t], together with its prefix handler. *)
Definition handles_ok (t : trace) : Prop :=
  (forall p, EvUnlistedHandle p ∈ t ->
     exists n, p = debug_path n /\ n ∈ invoked t /\ EvUnlistedHandlePrefix (String.append p "/") ∈ t) /\
  (forall p, EvUnlistedHandlePrefix p ∈ t -> exists n, p = String.append (debug_path n) "/" /\ n ∈ invoked t).

(** [t] mounts no debug handler. *)
Definition no_handles (t : trace) : Prop :=
  forall p, (EvUnlistedHandle p ∉ t) /\ (EvUnlistedHandlePrefix p ∉ t).

(** *** Inputs and trace classes the properties speak of *)

(** Traces made of registry-loop events only. *)
Definition loop_only (t : trace) : Prop := Forall (fun e => is_loop_event e = true) t.

(** An entry whose initializer reports no error when it is enabled. *)
Definition no_init_error (cctx : ControllerContext) (p : string * InitFn) : Prop :=
  IsControllerEnabled cctx p.1 = true -> (p.2 cctx).2 = None.

(** A context whose configuration lists [controllers]. *)
Definition context_with_controllers (controllers : list string) : ControllerContext :=
  {| KarmadaClientBuilder := None; FireflyClientBuilder := None;
     KarmadaDynamicInformerFactory := None; KarmadaKubeInformerFactory := None;
     KarmadaFireflyInformerFactory := None; KarmadaInformerFactory := None;
     FireflyDynamicInformerFactory := None; FireflyKubeInformerFactory := None;
     FireflyInformerFactory := None; EstimatorNamespace := ""; KarmadaName := "";
     ObjectOrMetadataInformerFactory := None;
     ComponentConfig := {| Generic := {| MinResyncPeriod := 0; Controllers := controllers;
                                         LeaderElect := false; LeaderMigrationEnabled := false |} |};
     RESTMapper := None; AvailableResources := ∅; HostClusterAvailableResources := ∅;
     InformersStarted := None; ResyncPeriod_ := None |}.

(** A discovery answer with one resource: [pods] in [v1]. *)
Definition example_discovery : list APIResourceList * option error :=
  ([{| GroupVersion_ := "v1"; APIResources := [{| Name := "pods" |}] |}], None).

(** A configuration; [minResyncPeriod] in nanoseconds. *)
Definition example_config (minResyncPeriod : Z) (controllers : list string)
    (leaderElect migration : bool)
  : Config.CompletedConfig :=
  {| Config.ComponentConfig :=
       {| Generic := {| MinResyncPeriod := minResyncPeriod; Controllers := controllers;
                        LeaderElect := leaderElect; LeaderMigrationEnabled := migration |} |};
     Config.EstimatorNamespace := "karmada-system"; Config.KarmadaName := "karmada";
     Config.KarmadaKubeconfig := "karmada.config"; Config.FireflyKubeconfig := "firefly.config";
     Config.SecureServing := false |}.

(** An environment where every call succeeds and every channel fires. *)
Definition example_env : Env :=
  {| env_draw := fun _ => 0%float; env_wait_karmada := None; env_wait_firefly := None;
     env_karmada_discovery := example_discovery; env_host_discovery := example_discovery;
     env_serve := None; env_hostname := inl "node-1"; env_ctx_done := true;
     env_stop := true; env_migration_ready := true |}.

End App.

(* ================================================================== *)
(** * Properties *)

(* ------------------------------------------------------------------ *)
(** ** The command's argument validator *)

Module CommandFacts.
Import Command.

Lemma string_length_zero (s : string) : String.length s = 0%nat <-> s = "".
Proof. destruct s; simpl; split; congruence. Qed.

Lemma Args_loop_none (p : string) (all args : list string) :
  Args_loop p all args = None <-> Forall (fun a => a = "") args.
Proof.
  induction args as [|a rest IH]; simpl.
  - split; auto.
  - destruct (Nat.ltb_spec 0 (String.length a)) as [Hlt|Hge].
    + split; [discriminate|]. intros HF. inversion HF; subst. simpl in Hlt. lia.
    + rewrite IH, Forall_cons. split; [|tauto].
      intros H. split; [|exact H]. apply string_length_zero. lia.
Qed.

Lemma Args_loop_some (p : string) (all args : list string) (e : error) :
  Args_loop p all args = Some e -> e = ErrTakesNoArguments p all.
Proof.
  induction args as [|a rest IH]; simpl; [discriminate|].
  destruct (0 <? String.length a)%nat; [congruence|exact IH].
Qed.

(** C9 (counterexample): a positional argument that is the empty string
    is accepted, so a non-empty argument list can pass the validator. *)
Lemma Args_accepts_empty_argument :
  Args "firefly-controller-manager" [""] = None /\
  ~ (forall p args, args <> [] -> is_Some (Args p args)).
Proof.
  split; [reflexivity|].
  intros H. destruct (H "firefly-controller-manager" [""]) as [e He];
    [discriminate | discriminate].
Qed.

(** C9 (amended): [Args] returns [nil] exactly when every positional
    argument is the empty string, and otherwise an error that names the
    command path and the whole argument list. *)
Theorem Args_rejects_nonempty_arguments (p : string) (args : list string) :
  (Args p args = None <-> Forall (fun a => a = "") args) /\
  (forall e, Args p args = Some e -> e = ErrTakesNoArguments p args).
Proof.
  unfold Args. split.
  - apply Args_loop_none.
  - intros e. apply Args_loop_some.
Qed.

End CommandFacts.

(* ------------------------------------------------------------------ *)
(** ** Clusterpedia storage dispatch *)

Module ClusterpediaFacts.
Import Clusterpedia.

(** Refutes the presence of a storage section with a [Local] part. *)
Ltac absent :=
  let Heq := fresh in let Hl := fresh in
  intros (? & ? & Heq & Hl); inversion Heq; subst; simpl in Hl; discriminate.

(** C10: [EnsureInternalStorage] calls [EnsurePostgres] when a Postgres
    spec with a [Local] section is present (whatever MySQL says), else
    [EnsureMySQL] when a MySQL spec with a [Local] section is present,
    and otherwise fails with "unknown storage type". *)
Theorem EnsureInternalStorage_dispatch {LP LM : Type}
    (EnsurePostgres EnsureMySQL : Clusterpedia LP LM -> option error)
    (c : Clusterpedia LP LM) :
  let storage := Storage_ LP LM (Spec LP LM c) in
  let pg_local := exists pg l, Postgres LP LM storage = Some pg /\ PostgresLocal LP pg = Some l in
  let my_local := exists my l, MySQL LP LM storage = Some my /\ MySQLLocal LM my = Some l in
  let result := EnsureInternalStorage LP LM EnsurePostgres EnsureMySQL c in
  (pg_local /\ result = EnsurePostgres c) \/
  (~ pg_local /\ my_local /\ result = EnsureMySQL c) \/
  (~ pg_local /\ ~ my_local /\ result = Some ErrUnknownStorageType).
Proof.
  destruct c as [[[pg my]]]. cbv zeta.
  unfold EnsureInternalStorage, postgres_local_set, mysql_local_set; cbn.
  destruct pg as [[[lp|]]|]; destruct my as [[[lm|]]|]; simpl;
    first
      [ left; split; [eauto | reflexivity]
      | right; left; split; [absent | split; [eauto | reflexivity]]
      | right; right; split; [absent | split; [absent | reflexivity]] ].
Qed.

End ClusterpediaFacts.

(* ------------------------------------------------------------------ *)
(** ** Resource discovery *)

Module DiscoveryFacts.
Import Discovery.

Lemma add_resources_lookup (v : GroupVersion) (rs : list APIResource)
    (m : gmap GroupVersionResource bool) (k : GroupVersionResource) :
  (add_resources v rs m !! k = Some true <-> m !! k = Some true \/ in_resources v rs k) /\
  (add_resources v rs m !! k = None <-> m !! k = None /\ ~ in_resources v rs k).
Proof.
  unfold in_resources. revert m.
  induction rs as [|a rs IH]; intros m; simpl.
  - split; split; try tauto.
    + intros [H | (r & Hr & _)]; [exact H | inversion Hr].
    + intros H; split; [exact H | intros (r & Hr & _); inversion Hr].
  - destruct (IH (<[WithResource v (Name a) := true]> m)) as [IH1 IH2].
    rewrite IH1, IH2.
    destruct (decide (k = WithResource v (Name a))) as [->|Hne].
    + rewrite lookup_insert_eq. split; split.
      * intros _. right. exists a. split; [left | reflexivity].
      * intros _. left. reflexivity.
      * intros [H _]. discriminate.
      * intros [_ H]. exfalso. apply H. exists a. split; [left | reflexivity].
    + rewrite lookup_insert_ne by congruence.
      setoid_rewrite elem_of_cons. naive_solver.
Qed.

Lemma collect_resources_cases (ls : list APIResourceList) (m : gmap GroupVersionResource bool) :
  ((collect_resources ls m).2 = None /\ Forall parses ls /\
   forall k,
     ((collect_resources ls m).1 !! k = Some true <-> m !! k = Some true \/ in_resource_lists ls k) /\
     ((collect_resources ls m).1 !! k = None <-> m !! k = None /\ ~ in_resource_lists ls k))
  \/
  (is_Some (collect_resources ls m).2 /\ (collect_resources ls m).1 = ∅ /\
   Exists (fun l => is_Some (ParseGroupVersion (GroupVersion_ l)).2) ls).
Proof.
  unfold in_resource_lists, parses. revert m.
  induction ls as [|l ls IH]; intros m; simpl.
  - left. split; [reflexivity|]. split; [constructor|].
    intros k. split; split; try tauto.
    + intros [H | H]; [exact H | inversion H].
    + intros H. split; [exact H | intros H'; inversion H'].
  - destruct (ParseGroupVersion (GroupVersion_ l)) as [version [e|]] eqn:Hp; simpl.
    + right. split; [eexists; reflexivity|]. split; [reflexivity|].
      left. rewrite Hp. eexists; reflexivity.
    + destruct (IH (add_resources version (APIResources l) m))
        as [(Hnone & Hall & Hk) | (Hsome & Hempty & Hex)].
      * left. split; [exact Hnone|]. split; [constructor; [rewrite Hp; reflexivity | exact Hall]|].
        intros k. destruct (Hk k) as [Hk1 Hk2].
        destruct (add_resources_lookup version (APIResources l) m k) as [Ha1 Ha2].
        rewrite Hk1, Hk2, Ha1, Ha2, Exists_cons, Hp. simpl. naive_solver.
      * right. split; [exact Hsome|]. split; [exact Hempty|]. right. exact Hex.
Qed.

(** C2 (counterexample): a non-empty discovery answer whose group version
    does not parse makes [GetAvailableResources] fail, so failure is not
    limited to the empty answer. *)
Lemma GetAvailableResources_fails_on_nonempty_answer :
  GetAvailableResources
    ([{| GroupVersion_ := "apps/v1/extra"; APIResources := [{| Name := "deployments" |}] |}], None)
  = (∅, Some (ErrUnexpectedGroupVersion "apps/v1/extra")) /\
  ~ (forall resourceMap err,
       is_Some (GetAvailableResources (resourceMap, err)).2 <-> resourceMap = []).
Proof.
  split; [reflexivity|].
  intros H.
  destruct (H [{| GroupVersion_ := "apps/v1/extra"; APIResources := [{| Name := "deployments" |}] |}]
              None) as [H1 _].
  discriminate (H1 ltac:(eexists; reflexivity)).
Qed.

(** [schema.ParseGroupVersion] rejects a string only with the
    unexpected-group-version error for that string. *)
Lemma ParseGroupVersion_error (gv : string) (e : error) :
  (ParseGroupVersion gv).2 = Some e -> e = ErrUnexpectedGroupVersion gv.
Proof.
  unfold ParseGroupVersion.
  destruct (((String.length gv =? 0)%nat || String.eqb gv (String slash EmptyString))%bool);
    [discriminate|].
  destruct (count_slash gv) as [|[|n]]; simpl; [discriminate| |].
  - destruct (split_at_slash gv). discriminate.
  - intros H. inversion H. reflexivity.
Qed.

(** The loop of [GetAvailableResources] stops at the first list whose
    group version does not parse, with that error and an empty map. *)
Lemma collect_resources_first_error (pre : list APIResourceList) (l : APIResourceList)
    (post : list APIResourceList) (m : gmap GroupVersionResource bool) (e : error) :
  Forall parses pre -> (ParseGroupVersion (GroupVersion_ l)).2 = Some e ->
  collect_resources (pre ++ l :: post) m = (∅, Some e).
Proof.
  unfold parses. revert m. induction pre as [|a pre IH]; intros m Hpre He; simpl.
  - destruct (ParseGroupVersion (GroupVersion_ l)) as [v err]. simpl in He. subst err. reflexivity.
  - inversion Hpre as [|? ? Ha Hpre']; subst.
    destruct (ParseGroupVersion (GroupVersion_ a)) as [v err]. simpl in Ha. subst err.
    exact (IH _ Hpre' He).
Qed.

(** The outcome of [GetAvailableResources]: when it fails, and what it
    returns on failure and on success. *)
Lemma GetAvailableResources_result_core (resourceMap : list APIResourceList) (err : option error) :
  let r := GetAvailableResources (resourceMap, err) in
  (resourceMap = [] -> r = (∅, Some ErrNoSupportedResources)) /\
  (is_Some r.2 <-> resourceMap = [] \/
                   Exists (fun l => is_Some (ParseGroupVersion (GroupVersion_ l)).2) resourceMap) /\
  (is_Some r.2 -> r.1 = ∅) /\
  (r.2 = None -> forall k,
     (r.1 !! k = Some true <->
        Exists (fun l => exists res, res ∈ APIResources l /\
                  k = WithResource (ParseGroupVersion (GroupVersion_ l)).1 (Name res)) resourceMap) /\
     (r.1 !! k = None <->
        ~ Exists (fun l => exists res, res ∈ APIResources l /\
                  k = WithResource (ParseGroupVersion (GroupVersion_ l)).1 (Name res)) resourceMap)).
Proof.
  cbv zeta. unfold GetAvailableResources.
  destruct resourceMap as [|l ls].
  - simpl. split; [reflexivity|]. split; [split; [intros _; left; reflexivity | intros _; eexists; reflexivity]|].
    split; [reflexivity|]. discriminate.
  - cbn [length Nat.eqb].
    split; [discriminate|].
    destruct (collect_resources_cases (l :: ls) ∅) as [(Hnone & Hall & Hk) | (Hsome & Hempty & Hex)].
    + rewrite Hnone. split; [|split].
      * split; [intros [? ?]; discriminate|].
        intros [Hnil | Hex]; [discriminate|].
        apply Exists_exists in Hex as (l' & Hin & [e He]).
        rewrite Forall_forall in Hall. unfold parses in Hall.
        rewrite (Hall l' Hin) in He. discriminate.
      * intros [? ?]; discriminate.
      * intros _ k. destruct (Hk k) as [Hk1 Hk2]. rewrite Hk1, Hk2, lookup_empty.
        unfold in_resource_lists, in_resources. naive_solver.
    + split; [|split].
      * split; [intros _; right; exact Hex | intros _; exact Hsome].
      * intros _; exact Hempty.
      * intros Hn. destruct Hsome as [e He]. rewrite He in Hn. discriminate.
Qed.

(** C2 (amended): whatever partial error discovery reports, the call
    fails exactly when the answer holds no resource list or some returned
    list has a group version [schema.ParseGroupVersion] rejects; a failure
    returns an empty map, an empty answer the "no supported resources"
    error, a non-empty answer the parse error of the first list whose
    group version does not parse, and a success exactly the
    group-version-resources of all returned lists. *)
Theorem GetAvailableResources_result (resourceMap : list APIResourceList) (err : option error) :
  let r := GetAvailableResources (resourceMap, err) in
  (resourceMap = [] -> r = (∅, Some ErrNoSupportedResources)) /\
  (is_Some r.2 <-> resourceMap = [] \/
                   Exists (fun l => is_Some (ParseGroupVersion (GroupVersion_ l)).2) resourceMap) /\
  (is_Some r.2 -> r.1 = ∅) /\
  (r.2 = None -> forall k,
     (r.1 !! k = Some true <->
        Exists (fun l => exists res, res ∈ APIResources l /\
                  k = WithResource (ParseGroupVersion (GroupVersion_ l)).1 (Name res)) resourceMap) /\
     (r.1 !! k = None <->
        ~ Exists (fun l => exists res, res ∈ APIResources l /\
                  k = WithResource (ParseGroupVersion (GroupVersion_ l)).1 (Name res)) resourceMap)) /\
  (forall pre l post, resourceMap = pre ++ l :: post -> Forall parses pre ->
     is_Some (ParseGroupVersion (GroupVersion_ l)).2 ->
     r = (∅, Some (ErrUnexpectedGroupVersion (GroupVersion_ l)))).
Proof.
  cbv zeta.
  pose proof (GetAvailableResources_result_core resourceMap err) as Hcore. cbv zeta in Hcore.
  destruct Hcore as (H1 & H2 & H3 & H4).
  split; [exact H1|]. split; [exact H2|]. split; [exact H3|]. split; [exact H4|].
  intros pre l post -> Hpre [e He].
  rewrite (ParseGroupVersion_error _ _ He) in He.
  unfold GetAvailableResources.
  destruct (length (pre ++ l :: post) =? 0)%nat eqn:HL.
  - apply Nat.eqb_eq in HL. rewrite length_app in HL. simpl in HL. lia.
  - exact (collect_resources_first_error pre l post ∅ _ Hpre He).
Qed.

End DiscoveryFacts.

(* ------------------------------------------------------------------ *)
(** ** The controller manager: supervisor, context and leadership *)

Module AppFacts.
Import Discovery App.

Lemma bind_Ret {A B} (m : M A) (k : A -> M B) (tr tr' : trace) (a : A) :
  m tr = (tr', Ret a) -> mbind k m tr = k a tr'.
Proof. intros H. unfold mbind, M_bind. rewrite H. reflexivity. Qed.

Lemma controller_check_spec (name : string) (ctrl : option Controller) (mux : bool) (tr : trace) :
  exists t, controller_check name ctrl mux tr = (tr ++ t, Ret (spec_health_check name ctrl)) /\
            loop_only t /\ Forall (fun e => is_init_call e = false) t.
Proof.
  unfold loop_only.
  destruct ctrl as [[dbg hc]|];
    [|exists []; rewrite app_nil_r; split; [reflexivity | split; constructor]].
  destruct dbg as [[h|]|]; [destruct mux|..];
    unfold controller_check, mbind, M_bind, emit, mret, M_ret; simpl;
    first
      [ exists []; rewrite app_nil_r; split; [destruct hc as [[?|]|]; reflexivity | split; constructor]
      | eexists; split; [rewrite <- app_assoc; destruct hc as [[?|]|]; reflexivity
                        | split; repeat constructor] ].
Qed.

Lemma start_loop_cons cctx name (f : InitFn) reg mux checks tr :
  start_loop cctx ((name, f) :: reg) mux checks tr =
  if negb (IsControllerEnabled cctx name) then start_loop cctx reg mux checks tr
  else let '(ctrl, started, err) := f cctx in
       match err with
       | Some e => (tr ++ [EvInvoke name; EvReturn name], Ret (inl e))
       | None =>
           if negb started then start_loop cctx reg mux checks (tr ++ [EvInvoke name; EvReturn name])
           else mbind (fun check => start_loop cctx reg mux (checks ++ [check]))
                  (controller_check name ctrl mux) (tr ++ [EvInvoke name; EvReturn name])
       end.
Proof.
  simpl. destruct (negb _); [reflexivity|].
  destruct (f cctx) as [[ctrl started] [e|]]; cbn;
    try destruct started; unfold mbind, M_bind, emit, mret, M_ret; simpl;
    rewrite <- app_assoc; reflexivity.
Qed.

Lemma start_loop_trace cctx (reg : list (string * InitFn)) mux checks tr :
  exists t r, start_loop cctx reg mux checks tr = (tr ++ t, Ret r) /\ loop_only t /\
    (forall cs, r = inr cs -> forall p, p ∈ reg -> IsControllerEnabled cctx p.1 = true ->
                EvInvoke p.1 ∈ t /\ EvReturn p.1 ∈ t).
Proof.
  unfold loop_only.
  revert checks tr. induction reg as [|[name f] reg IH]; intros checks tr.
  - exists [], (inr checks). rewrite app_nil_r. split; [reflexivity|]. split; [constructor|].
    intros cs _ p Hp. inversion Hp.
  - rewrite start_loop_cons.
    destruct (IsControllerEnabled cctx name) eqn:Hen; simpl.
    + destruct (f cctx) as [[ctrl started] [e|]].
      * exists [EvInvoke name; EvReturn name], (inl e). split; [reflexivity|].
        split; [repeat constructor | discriminate].
      * destruct started; simpl.
        -- destruct (controller_check_spec name ctrl mux (tr ++ [EvInvoke name; EvReturn name]))
             as (tc & Hc & Htc & Htc').
           rewrite (bind_Ret _ _ _ _ _ Hc).
           destruct (IH (checks ++ [spec_health_check name ctrl])
                       ((tr ++ [EvInvoke name; EvReturn name]) ++ tc)) as (t & r & Hl & Ht & Hinv).
           exists ([EvInvoke name; EvReturn name] ++ tc ++ t), r.
           rewrite Hl, <- !app_assoc. split; [reflexivity|].
           split; [repeat (apply Forall_app; split); repeat constructor; assumption|].
           intros cs Hr p Hp Hpen. apply elem_of_cons in Hp as [->|Hp].
           ++ simpl. split; set_solver.
           ++ destruct (Hinv cs Hr p Hp Hpen). split; set_solver.
        -- destruct (IH checks (tr ++ [EvInvoke name; EvReturn name])) as (t & r & Hl & Ht & Hinv).
           exists ([EvInvoke name; EvReturn name] ++ t), r.
           rewrite Hl, <- !app_assoc. split; [reflexivity|].
           split; [apply Forall_app; split; [repeat constructor | assumption]|].
           intros cs Hr p Hp Hpen. apply elem_of_cons in Hp as [->|Hp].
           ++ simpl. split; set_solver.
           ++ destruct (Hinv cs Hr p Hp Hpen). split; set_solver.
    + destruct (IH checks tr) as (t & r & Hl & Ht & Hinv).
      exists t, r. split; [exact Hl|]. split; [exact Ht|].
      intros cs Hr p Hp Hpen. apply elem_of_cons in Hp as [->|Hp].
      * simpl in Hpen. congruence.
      * exact (Hinv cs Hr p Hp Hpen).
Qed.

Lemma start_loop_ok cctx (reg : list (string * InitFn)) mux
    (Hok : Forall (no_init_error cctx) reg) checks tr :
  exists t, start_loop cctx reg mux checks tr =
              (tr ++ t, Ret (inr (checks ++ spec_health_checks cctx reg))) /\ loop_only t.
Proof.
  unfold loop_only.
  revert checks tr. induction reg as [|[name f] reg IH]; intros checks tr.
  - exists []. rewrite !app_nil_r. split; [reflexivity | constructor].
  - apply Forall_cons in Hok as [Hhd Htl]. unfold no_init_error in Hhd. simpl in Hhd.
    specialize (IH Htl).
    rewrite start_loop_cons. unfold spec_health_checks. simpl flat_map. fold (spec_health_checks cctx reg).
    destruct (IsControllerEnabled cctx name) eqn:Hen; simpl.
    + destruct (f cctx) as [[ctrl started] err] eqn:Hf. simpl in Hhd. rewrite (Hhd eq_refl).
      destruct started; simpl.
      * destruct (controller_check_spec name ctrl mux (tr ++ [EvInvoke name; EvReturn name]))
          as (tc & Hc & Htc & Htc').
        rewrite (bind_Ret _ _ _ _ _ Hc).
        destruct (IH (checks ++ [spec_health_check name ctrl])
                    ((tr ++ [EvInvoke name; EvReturn name]) ++ tc)) as (t & Hl & Ht).
        exists ([EvInvoke name; EvReturn name] ++ tc ++ t).
        rewrite Hl, <- !app_assoc. split; [reflexivity|].
        repeat (apply Forall_app; split); repeat constructor; assumption.
      * destruct (IH checks (tr ++ [EvInvoke name; EvReturn name])) as (t & Hl & Ht).
        exists ([EvInvoke name; EvReturn name] ++ t).
        rewrite Hl, <- !app_assoc. split; [reflexivity|].
        apply Forall_app; split; [repeat constructor | assumption].
    + destruct (f cctx) as [[ctrl started] err]. simpl.
      exact (IH checks tr).
Qed.

Lemma start_loop_err cctx (pre : list (string * InitFn)) name (initFn : InitFn) post mux
    ctrl started e (Hpre : Forall (no_init_error cctx) pre)
    (Hen : IsControllerEnabled cctx name = true) (Hinit : initFn cctx = (ctrl, started, Some e))
    checks tr :
  exists t1, start_loop cctx (pre ++ (name, initFn) :: post) mux checks tr =
               (tr ++ t1 ++ [EvInvoke name; EvReturn name], Ret (inl e)) /\
             loop_only t1 /\ (forall n, EvInvoke n ∈ t1 -> n ∈ pre.*1).
Proof.
  unfold loop_only.
  revert checks tr. induction pre as [|[n f] pre IH]; intros checks tr; cbn [app].
  - exists []. rewrite start_loop_cons, Hen, Hinit. simpl.
    split; [reflexivity|]. split; [constructor|]. intros n Hn. inversion Hn.
  - apply Forall_cons in Hpre as [Hhd Htl]. unfold no_init_error in Hhd. simpl in Hhd.
    specialize (IH Htl).
    rewrite start_loop_cons.
    destruct (IsControllerEnabled cctx n) eqn:Hn; simpl.
    + destruct (f cctx) as [[c0 s0] err] eqn:Hf. simpl in Hhd. rewrite (Hhd eq_refl).
      destruct s0; simpl.
      * destruct (controller_check_spec n c0 mux (tr ++ [EvInvoke n; EvReturn n]))
          as (tc & Hc & Htc & Htc').
        rewrite (bind_Ret _ _ _ _ _ Hc).
        destruct (IH (checks ++ [spec_health_check n c0])
                    ((tr ++ [EvInvoke n; EvReturn n]) ++ tc)) as (t & Hl & Ht & Hnames).
        exists ([EvInvoke n; EvReturn n] ++ tc ++ t).
        rewrite Hl, <- !app_assoc. split; [reflexivity|].
        split; [repeat (apply Forall_app; split); repeat constructor; assumption|].
        intros m Hm. apply elem_of_cons. rewrite !elem_of_app in Hm.
        destruct Hm as [Hm | [Hm | Hm]].
        -- apply elem_of_cons in Hm as [Hm|Hm]; [inversion Hm; left; reflexivity|].
           apply elem_of_cons in Hm as [Hm|Hm]; [discriminate | inversion Hm].
        -- exfalso. rewrite Forall_forall in Htc'.
           specialize (Htc' _ Hm). discriminate.
        -- right. exact (Hnames m Hm).
      * destruct (IH checks (tr ++ [EvInvoke n; EvReturn n])) as (t & Hl & Ht & Hnames).
        exists ([EvInvoke n; EvReturn n] ++ t).
        rewrite Hl, <- !app_assoc. split; [reflexivity|].
        split; [apply Forall_app; split; [repeat constructor | assumption]|].
        intros m Hm. apply elem_of_cons. rewrite elem_of_app in Hm.
        destruct Hm as [Hm | Hm].
        -- apply elem_of_cons in Hm as [Hm|Hm]; [inversion Hm; left; reflexivity|].
           apply elem_of_cons in Hm as [Hm|Hm]; [discriminate | inversion Hm].
        -- right. exact (Hnames m Hm).
    + destruct (f cctx) as [[c0 s0] err]. simpl.
      destruct (IH checks tr) as (t & Hl & Ht & Hnames).
      exists t. split; [exact Hl|]. split; [exact Ht|].
      intros m Hm. apply elem_of_cons. right. exact (Hnames m Hm).
Qed.

(** C1: when the first failing entry of the registry is an enabled
    controller whose initializer returns an error [e], [StartControllers]
    returns [e] right after that initializer returns. The initializers
    invoked before it all belong to entries ahead of it, none after it is
    invoked, and the trace holds no health-check registration. *)
Theorem StartControllers_returns_first_error (cctx : ControllerContext)
    (pre post : list (string * InitFn)) (name : string) (initFn : InitFn) (mux : bool)
    (ctrl : option Controller) (started : bool) (e : error) (tr : trace)
    (Hpre : Forall (no_init_error cctx) pre)
    (Hen : IsControllerEnabled cctx name = true)
    (Hinit : initFn cctx = (ctrl, started, Some e)) :
  exists t1,
    StartControllers cctx (pre ++ (name, initFn) :: post) mux tr =
      (tr ++ t1 ++ [EvInvoke name; EvReturn name], Ret (Some e)) /\
    loop_only t1 /\ (forall n, EvInvoke n ∈ t1 -> n ∈ pre.*1).
Proof.
  destruct (start_loop_err cctx pre name initFn post mux ctrl started e Hpre Hen Hinit [] tr)
    as (t1 & Hl & Ht & Hn).
  exists t1. unfold StartControllers. rewrite (bind_Ret _ _ _ _ _ Hl).
  split; [reflexivity|]. split; assumption.
Qed.

(** C1, at a three-entry registry whose second initializer fails. *)
Lemma StartControllers_returns_first_error_witness :
  let cctx := context_with_controllers ["*"] in
  let initA : InitFn := fun _ => (None, true, None) in
  let initB : InitFn := fun _ => (None, true, Some (ErrExternal "b failed")) in
  let initC : InitFn := fun _ => (None, true, None) in
  Forall (no_init_error cctx) [("a", initA)] /\
  IsControllerEnabled cctx "b" = true /\
  initB cctx = (None, true, Some (ErrExternal "b failed")) /\
  exists t1,
    StartControllers cctx ([("a", initA)] ++ ("b", initB) :: [("c", initC)]) true [] =
      ([] ++ t1 ++ [EvInvoke "b"; EvReturn "b"], Ret (Some (ErrExternal "b failed"))) /\
    loop_only t1 /\ (forall n, EvInvoke n ∈ t1 -> n ∈ [("a", initA)].*1).
Proof.
  intros cctx initA initB initC.
  assert (Hpre : Forall (no_init_error cctx) [("a", initA)])
    by (repeat constructor; unfold no_init_error; simpl; reflexivity).
  split; [exact Hpre|]. split; [reflexivity|]. split; [reflexivity|].
  apply (StartControllers_returns_first_error cctx [("a", initA)] [("c", initC)] "b" initB true
           None true (ErrExternal "b failed") [] Hpre); reflexivity.
Defined.

(** C3: when no enabled initializer reports an error, [StartControllers]
    returns [nil] and registers with the health handler exactly the checks
    [spec_health_checks] lists. That is one check per enabled controller
    whose initializer reports [started]: its own checker when it has one,
    otherwise a named ping check. Disabled and declined controllers get none. *)
Theorem StartControllers_one_check_per_started_controller (cctx : ControllerContext)
    (controllers : list (string * InitFn)) (mux : bool) (tr : trace)
    (Hok : Forall (no_init_error cctx) controllers) :
  exists t,
    StartControllers cctx controllers mux tr =
      (tr ++ t ++ [EvAddHealthChecker (spec_health_checks cctx controllers)], Ret None) /\
    loop_only t.
Proof.
  destruct (start_loop_ok cctx controllers mux Hok [] tr) as (t & Hl & Ht).
  exists t. unfold StartControllers. rewrite (bind_Ret _ _ _ _ _ Hl).
  unfold mbind, M_bind, emit, mret, M_ret. rewrite <- app_assoc.
  split; [reflexivity | exact Ht].
Qed.

(** C3, at a registry with a disabled, a declined and a running entry. *)
Lemma StartControllers_one_check_per_started_controller_witness :
  let cctx := context_with_controllers ["declined"; "running"] in
  let registry : list (string * InitFn) :=
    [("disabled", fun _ => (None, true, None));
     ("declined", fun _ => (None, false, None));
     ("running", fun _ => (Some {| debuggable := None; health_checkable := Some (Some 7%nat) |},
                           true, None))] in
  Forall (no_init_error cctx) registry /\
  spec_health_checks cctx registry = [NamedHealthChecker "running" 7%nat] /\
  exists t,
    StartControllers cctx registry false [] =
      ([] ++ t ++ [EvAddHealthChecker (spec_health_checks cctx registry)], Ret None) /\
    loop_only t.
Proof.
  intros cctx registry.
  assert (Hok : Forall (no_init_error cctx) registry)
    by (repeat constructor; unfold no_init_error; simpl; reflexivity).
  split; [exact Hok|]. split; [reflexivity|].
  exact (StartControllers_one_check_per_started_controller cctx registry false [] Hok).
Defined.

Lemma CreateControllerContext_cases (s : Config.CompletedConfig) (env : Env) (tr : trace) :
  let n := length (filter is_make tr) in
  exists t ctx err,
    CreateControllerContext s env tr = (tr ++ t, Ret (ctx, err)) /\
    (err = None -> t = [EvGoResetRESTMapper; EvMakeChan (ChMade n)] /\
                   InformersStarted ctx = Some (ChMade n) /\
                   ComponentConfig ctx = Config.ComponentConfig s) /\
    (err <> None -> ctx = zero_ControllerContext /\ Forall (fun e => e = EvGoResetRESTMapper) t).
Proof.
  cbv zeta. unfold CreateControllerContext.
  destruct (env_wait_karmada env) as [e|];
    [exists [], zero_ControllerContext, (Some (ErrWaitForAPIServer e));
     rewrite app_nil_r; split; [reflexivity|]; split; [discriminate|]; split; [reflexivity|constructor]|].
  destruct (env_wait_firefly env) as [e|];
    [exists [], zero_ControllerContext, (Some (ErrWaitForAPIServer e));
     rewrite app_nil_r; split; [reflexivity|]; split; [discriminate|]; split; [reflexivity|constructor]|].
  unfold mbind at 1, M_bind at 1, emit at 1.
  destruct (GetAvailableResources (env_karmada_discovery env)) as [ar [e|]].
  { exists [EvGoResetRESTMapper], zero_ControllerContext, (Some e).
    split; [reflexivity|]. split; [discriminate|]. split; [reflexivity|repeat constructor]. }
  destruct (GetAvailableResources (env_host_discovery env)) as [hr [e|]].
  { exists [EvGoResetRESTMapper], zero_ControllerContext, (Some e).
    split; [reflexivity|]. split; [discriminate|]. split; [reflexivity|repeat constructor]. }
  unfold mbind, M_bind, make_chan, mret, M_ret.
  assert (Hf : filter is_make (tr ++ [EvGoResetRESTMapper]) = filter is_make tr)
    by (rewrite filter_app; simpl; rewrite ?filter_nil, ?app_nil_r; reflexivity).
  cbv beta zeta. rewrite Hf.
  eexists _, _, None. rewrite <- app_assoc.
  split; [reflexivity|]. split; [|intros []; reflexivity].
  intros _. split; [reflexivity|]. split; reflexivity.
Qed.

(** C8: [CreateControllerContext] never returns an error with a context
    other than the zero one. An error of the karmada discovery, or of the
    host discovery after a successful karmada discovery, is returned as is
    with the zero context. *)
Theorem CreateControllerContext_discovery_failure_returns_zero_context
    (s : Config.CompletedConfig) (env : Env) (tr : trace) :
  let o := (CreateControllerContext s env tr).2 in
  (forall ctx e, o = Ret (ctx, Some e) -> ctx = zero_ControllerContext) /\
  (env_wait_karmada env = None -> env_wait_firefly env = None ->
   forall e, (GetAvailableResources (env_karmada_discovery env)).2 = Some e ->
   o = Ret (zero_ControllerContext, Some e)) /\
  (env_wait_karmada env = None -> env_wait_firefly env = None ->
   (GetAvailableResources (env_karmada_discovery env)).2 = None ->
   forall e, (GetAvailableResources (env_host_discovery env)).2 = Some e ->
   o = Ret (zero_ControllerContext, Some e)).
Proof.
  cbv zeta. split; [|split].
  - intros ctx e Ho.
    destruct (CreateControllerContext_cases s env tr) as (t & ctx' & err & Hc & _ & Herr).
    rewrite Hc in Ho. simpl in Ho. inversion Ho; subst.
    apply Herr. discriminate.
  - intros Hk Hf e He. unfold CreateControllerContext. rewrite Hk, Hf.
    destruct (GetAvailableResources (env_karmada_discovery env)) as [ar err]. simpl in He. subst err.
    reflexivity.
  - intros Hk Hf Hnone e He. unfold CreateControllerContext. rewrite Hk, Hf.
    destruct (GetAvailableResources (env_karmada_discovery env)) as [ar err]. simpl in Hnone. subst err.
    destruct (GetAvailableResources (env_host_discovery env)) as [hr err]. simpl in He. subst err.
    reflexivity.
Qed.

Lemma StartControllers_trace (cctx : ControllerContext) (reg : list (string * InitFn)) (mux : bool)
    (tr : trace) :
  exists t r, StartControllers cctx reg mux tr = (tr ++ t, Ret r) /\
    (forall e, r = Some e -> loop_only t) /\
    (r = None -> exists tl cs, t = tl ++ [EvAddHealthChecker cs] /\ loop_only tl /\
       forall p, p ∈ reg -> IsControllerEnabled cctx p.1 = true ->
                 EvInvoke p.1 ∈ tl /\ EvReturn p.1 ∈ tl).
Proof.
  destruct (start_loop_trace cctx reg mux [] tr) as (t & r & Hl & Ht & Hinv).
  unfold StartControllers. rewrite (bind_Ret _ _ _ _ _ Hl).
  destruct r as [e|cs].
  - exists t, (Some e). split; [reflexivity|]. split; [intros; exact Ht | discriminate].
  - exists (t ++ [EvAddHealthChecker cs]), None.
    unfold mbind, M_bind, emit, mret, M_ret. rewrite <- app_assoc.
    split; [reflexivity|]. split; [discriminate|].
    intros _. exists t, cs. split; [reflexivity|]. split; [exact Ht|].
    exact (Hinv cs eq_refl).
Qed.

Lemma loop_only_no_close (t : trace) (c : chan) : loop_only t -> existsb (closes c) t = false.
Proof.
  induction t as [|e t IH]; intros Ht; [reflexivity|].
  inversion Ht as [|? ? He Ht']; subst. simpl. rewrite (IH Ht').
  destruct e; try discriminate; reflexivity.
Qed.

Lemma run_shape (c : Config.CompletedConfig) (env : Env) (mux : bool)
    (inits : list (string * InitFn)) (tr : trace) :
  let ch := ChMade (length (filter is_make tr)) in
  exists t o, run c env mux inits tr = (tr ++ t, o) /\
  ((o = Exit 255 /\ exists t0, t = t0 ++ [EvFatal] /\
      Forall (fun e => is_loop_event e = true \/ e = EvGoResetRESTMapper \/ e = EvMakeChan ch) t0)
   \/
   (exists tl cs tend,
      t = [EvGoResetRESTMapper; EvMakeChan ch] ++ tl ++
          EvAddHealthChecker cs :: map EvStart started_factories ++ tend /\
      loop_only tl /\
      (forall p, p ∈ inits ->
         IsControllerEnabled_loop p.1 (Controllers (Generic (Config.ComponentConfig c))) false = true ->
         EvInvoke p.1 ∈ tl /\ EvReturn p.1 ∈ tl) /\
      ((o = Panic /\ tend = [] /\ existsb (closes ch) tr = true) \/
       (o = Ret tt /\ tend = [EvClose ch; EvRecv ChCtxDone]) \/
       (o = Blocked /\ tend = [EvClose ch])))).
Proof.
  cbv zeta. unfold run.
  destruct (CreateControllerContext_cases c env tr) as (tc & ctx & err & Hc & Hok & Herr).
  rewrite (bind_Ret _ _ _ _ _ Hc).
  destruct err as [e|].
  - destruct (Herr ltac:(discriminate)) as [_ Htc].
    exists (tc ++ [EvFatal]), (Exit 255). cbn. unfold fatal. rewrite <- app_assoc.
    split; [reflexivity|]. left. split; [reflexivity|]. exists tc. split; [reflexivity|].
    eapply Forall_impl; [exact Htc|]. intros ev Hev. right. left. exact Hev.
  - destruct (Hok eq_refl) as (-> & Hch & Hcfg). cbn.
    destruct (StartControllers_trace ctx inits mux
                (tr ++ [EvGoResetRESTMapper; EvMakeChan (ChMade (length (filter is_make tr)))]))
      as (t & r & Hs & Hsome & Hnone).
    rewrite (bind_Ret _ _ _ _ _ Hs).
    destruct r as [e|].
    + exists ([EvGoResetRESTMapper; EvMakeChan (ChMade (length (filter is_make tr)))] ++ t ++ [EvFatal]),
        (Exit 255).
      unfold fatal. rewrite <- !app_assoc. split; [reflexivity|].
      left. split; [reflexivity|]. eexists. rewrite app_assoc. split; [reflexivity|].
      apply Forall_app. split;
        [constructor; [right; left; reflexivity|];
         constructor; [right; right; reflexivity | constructor]|].
      eapply Forall_impl; [exact (Hsome e eq_refl)|]. intros ev Hev. left. exact Hev.
    + destruct (Hnone eq_refl) as (tl & cs & -> & Htl & Hinv).
      unfold mbind, M_bind, emit, close, recv, block. rewrite Hch. cbv beta.
      rewrite <- !app_assoc. cbn [app].
      rewrite existsb_app. simpl. rewrite existsb_app, (loop_only_no_close _ _ Htl). simpl.
      rewrite orb_false_r.
      assert (Henabled : forall p, p ∈ inits ->
         IsControllerEnabled_loop p.1 (Controllers (Generic (Config.ComponentConfig c))) false = true ->
         EvInvoke p.1 ∈ tl /\ EvReturn p.1 ∈ tl).
      { intros p Hp Hen. apply Hinv; [exact Hp|]. unfold IsControllerEnabled. rewrite Hcfg. exact Hen. }
      destruct (existsb _ tr) eqn:Hx; [|destruct (env_ctx_done env)]; simpl.
      * eexists _, Panic. split; [reflexivity|]. right.
        exists tl, cs, []. split; [reflexivity|]. split; [exact Htl|]. split; [exact Henabled|].
        left. split; [reflexivity|]. split; [reflexivity | first [exact Hx | reflexivity]].
      * unfold emit. rewrite <- !app_assoc. simpl. eexists _, (Ret tt). split; [reflexivity|]. right.
        exists tl, cs, [EvClose (ChMade (length (filter is_make tr))); EvRecv ChCtxDone].
        split; [simpl; rewrite <- ?app_assoc; reflexivity|].
        split; [exact Htl|]. split; [exact Henabled|].
        right. left. split; reflexivity.
      * try unfold emit, block. rewrite <- ?app_assoc. simpl. eexists _, Blocked. split; [reflexivity|]. right.
        exists tl, cs, [EvClose (ChMade (length (filter is_make tr)))].
        split; [simpl; rewrite <- ?app_assoc; reflexivity|].
        split; [exact Htl|]. split; [exact Henabled|].
        right. right. split; reflexivity.
Qed.

Lemma closes_only_made_fresh (tr : trace) :
  closes_only_made tr = true -> existsb (closes (ChMade (length (filter is_make tr)))) tr = false.
Proof.
  unfold closes_only_made. generalize (length (filter is_make tr)) as n. intros n.
  induction tr as [|e tr IH]; [reflexivity|]. simpl. intros H.
  apply andb_prop in H as [He Hrest]. rewrite (IH Hrest), orb_false_r.
  destruct e as [| | | | | | | | | c | | |]; try reflexivity.
  destruct c as [| | |k]; try reflexivity. simpl.
  apply Nat.ltb_lt in He. apply bool_decide_eq_false_2. intros Heq. inversion Heq. lia.
Qed.

Lemma loop_event_not_start_close (e : event) :
  is_loop_event e = true -> is_start e = false /\ is_close e = false.
Proof. destruct e; simpl; try discriminate; split; reflexivity. Qed.

(** C4: in one epoch's [run], the trace splits into a prefix with no
    informer start and a suffix with no initializer call. When the suffix
    starts any factory, the prefix holds [StartControllers]' health-check
    registration (its successful end) and the invocation and return of
    every enabled initializer of the registry. *)
Theorem run_initializes_before_starting_informers (c : Config.CompletedConfig) (env : Env)
    (mux : bool) (inits : list (string * InitFn)) (tr : trace) :
  exists t1 t2 o, run c env mux inits tr = (tr ++ t1 ++ t2, o) /\
    Forall (fun e => is_start e = false) t1 /\
    Forall (fun e => is_init_call e = false) t2 /\
    (Exists (fun e => is_start e = true) t2 ->
       (exists cs, EvAddHealthChecker cs ∈ t1) /\
       forall p, p ∈ inits ->
         IsControllerEnabled_loop p.1 (Controllers (Generic (Config.ComponentConfig c))) false = true ->
         EvInvoke p.1 ∈ t1 /\ EvReturn p.1 ∈ t1).
Proof.
  destruct (run_shape c env mux inits tr) as
    (t & o & Hrun & [(Ho & t0 & -> & Ht0) | (tl & cs & tend & -> & Htl & Hen & Hend)]).
  - exists (t0 ++ [EvFatal]), [], o. rewrite app_nil_r. split; [exact Hrun|].
    split; [|split; [constructor | intros Hx; inversion Hx]].
    apply Forall_app. split; [|repeat constructor].
    eapply Forall_impl; [exact Ht0|]. intros e [He | [He | He]].
    + exact (proj1 (loop_event_not_start_close e He)).
    + subst; reflexivity.
    + subst; reflexivity.
  - exists ([EvGoResetRESTMapper; EvMakeChan (ChMade (length (filter is_make tr)))] ++ tl ++
            [EvAddHealthChecker cs]), (map EvStart started_factories ++ tend), o.
    split; [rewrite Hrun; simpl; rewrite <- !app_assoc; reflexivity|].
    split.
    { apply Forall_app. split; [repeat constructor|]. apply Forall_app. split; [|repeat constructor].
      eapply Forall_impl; [exact Htl|]. intros e He. exact (proj1 (loop_event_not_start_close e He)). }
    split.
    { apply Forall_app. split; [repeat constructor|].
      destruct Hend as [(_ & -> & _) | [(_ & ->) | (_ & ->)]]; repeat constructor. }
    intros _. split.
    + exists cs. set_solver.
    + intros p Hp Hp'. destruct (Hen p Hp Hp') as [Hi Hr]. set_solver.
Qed.

(** C5 (counterexample): in an epoch that starts its informers,
    [KarmadaDynamicInformerFactory.Start] comes at position 3 and the close
    of [InformersStarted] at position 11. So a start precedes the close.
    Closing an already closed channel panics. *)
Lemma run_starts_informers_before_closing_gate :
  let tr := fst (run (example_config 1000000000 ["*"] false false) example_env false [] []) in
  nth_error tr 3 = Some (EvStart KarmadaDynamic) /\
  nth_error tr 11 = Some (EvClose (ChMade 0)) /\
  ~ (forall i j f ch, nth_error tr i = Some (EvStart f) ->
       nth_error tr j = Some (EvClose ch) -> (j < i)%nat) /\
  snd (close (Some (ChMade 0)) [EvMakeChan (ChMade 0); EvClose (ChMade 0)]) = Panic.
Proof.
  intros tr.
  assert (H3 : nth_error tr 3 = Some (EvStart KarmadaDynamic)) by (vm_compute; reflexivity).
  assert (H11 : nth_error tr 11 = Some (EvClose (ChMade 0))) by (vm_compute; reflexivity).
  split; [exact H3|]. split; [exact H11|]. split; [|reflexivity].
  intros Hall. specialize (Hall 3%nat 11%nat _ _ H3 H11). lia.
Qed.

(** On a trace that closes only channels it made, one epoch's [run]
    never panics. Either it starts no factory and closes nothing, or it
    starts the eight factories in a row, closes its own new
    [InformersStarted] channel right after them, and closes and starts
    nothing else. *)
Lemma run_gate_shape (c : Config.CompletedConfig) (env : Env)
    (mux : bool) (inits : list (string * InitFn)) (tr : trace)
    (Hwf : closes_only_made tr = true) :
  let ch := ChMade (length (filter is_make tr)) in
  exists t o, run c env mux inits tr = (tr ++ t, o) /\ o <> Panic /\
    (Forall (fun e => is_start e = false /\ is_close e = false) t \/
     exists t0 t2, t = t0 ++ map EvStart started_factories ++ EvClose ch :: t2 /\
       Forall (fun e => is_start e = false /\ is_close e = false) t0 /\
       Forall (fun e => is_start e = false /\ is_close e = false) t2).
Proof.
  cbv zeta.
  destruct (run_shape c env mux inits tr) as
    (t & o & Hrun & [(Ho & t0 & -> & Ht0) | (tl & cs & tend & -> & Htl & Hen & Hend)]).
  - exists (t0 ++ [EvFatal]), o. split; [exact Hrun|]. split; [subst; discriminate|].
    left. apply Forall_app. split; [|repeat constructor].
    eapply Forall_impl; [exact Ht0|]. intros e [He | [He | He]].
    + exact (loop_event_not_start_close e He).
    + subst; split; reflexivity.
    + subst; split; reflexivity.
  - exists ([EvGoResetRESTMapper; EvMakeChan (ChMade (length (filter is_make tr)))] ++ tl ++
            EvAddHealthChecker cs :: map EvStart started_factories ++ tend), o.
    split; [exact Hrun|].
    destruct Hend as [(_ & _ & Hx) | [(-> & ->) | (-> & ->)]].
    + rewrite (closes_only_made_fresh tr Hwf) in Hx. discriminate.
    + split; [discriminate|]. right.
      exists ([EvGoResetRESTMapper; EvMakeChan (ChMade (length (filter is_make tr)))] ++ tl ++
              [EvAddHealthChecker cs]), [EvRecv ChCtxDone].
      split; [simpl; rewrite <- !app_assoc; reflexivity|].
      split; [|repeat constructor].
      apply Forall_app. split; [repeat constructor|]. apply Forall_app. split; [|repeat constructor].
      eapply Forall_impl; [exact Htl|]. intros e He. exact (loop_event_not_start_close e He).
    + split; [discriminate|]. right.
      exists ([EvGoResetRESTMapper; EvMakeChan (ChMade (length (filter is_make tr)))] ++ tl ++
              [EvAddHealthChecker cs]), [].
      split; [simpl; rewrite <- !app_assoc; reflexivity|].
      split; [|constructor].
      apply Forall_app. split; [repeat constructor|]. apply Forall_app. split; [|repeat constructor].
      eapply Forall_impl; [exact Htl|]. intros e He. exact (loop_event_not_start_close e He).
Qed.

Lemma run_context_failure (c : Config.CompletedConfig) (env : Env) (mux : bool)
    (inits : list (string * InitFn)) (tr tr1 : trace) (ctx : ControllerContext) (e : error) :
  CreateControllerContext c env tr = (tr1, Ret (ctx, Some e)) ->
  run c env mux inits tr = (tr1 ++ [EvFatal], Exit 255).
Proof. intros H1. unfold run. rewrite (bind_Ret _ _ _ _ _ H1). reflexivity. Qed.

Lemma run_start_failure (c : Config.CompletedConfig) (env : Env) (mux : bool)
    (inits : list (string * InitFn)) (tr tr1 tr2 : trace) (ctx : ControllerContext) (e : error) :
  CreateControllerContext c env tr = (tr1, Ret (ctx, None)) ->
  StartControllers ctx inits mux tr1 = (tr2, Ret (Some e)) ->
  run c env mux inits tr = (tr2 ++ [EvFatal], Exit 255).
Proof.
  intros H1 H2. unfold run. rewrite (bind_Ret _ _ _ _ _ H1). cbn.
  rewrite (bind_Ret _ _ _ _ _ H2). reflexivity.
Qed.

Lemma close_again (ch : chan) (l : trace) : EvClose ch ∈ l -> (close (Some ch) l).2 = Panic.
Proof.
  intros H. unfold close.
  assert (Hx : existsb (closes ch) l = true).
  { apply existsb_exists. exists (EvClose ch). split; [apply list_elem_of_In; exact H|].
    simpl. apply bool_decide_eq_true. reflexivity. }
  rewrite Hx. reflexivity.
Qed.

Lemma run_success_gate (c : Config.CompletedConfig) (env : Env) (mux : bool)
    (inits : list (string * InitFn)) (tr tr1 tr2 : trace) (ctx : ControllerContext)
    (Hwf : closes_only_made tr = true) :
  let ch := ChMade (length (filter is_make tr)) in
  CreateControllerContext c env tr = (tr1, Ret (ctx, None)) ->
  StartControllers ctx inits mux tr1 = (tr2, Ret None) ->
  InformersStarted ctx = Some ch /\
  exists t2 o, run c env mux inits tr = (tr2 ++ map EvStart started_factories ++ EvClose ch :: t2, o) /\
    Forall (fun e => is_start e = false /\ is_close e = false) t2.
Proof.
  cbv zeta. intros H1 H2.
  destruct (CreateControllerContext_cases c env tr) as (tc & ctx' & err & Hc & Hok & _).
  rewrite H1 in Hc. injection Hc as E1 E2 E3. subst tr1 ctx' err.
  destruct (Hok eq_refl) as (-> & Hch & _). split; [exact Hch|].
  destruct (StartControllers_trace ctx inits mux
              (tr ++ [EvGoResetRESTMapper; EvMakeChan (ChMade (length (filter is_make tr)))]))
    as (t & r & Hs & _ & Hnone).
  rewrite H2 in Hs. injection Hs as E1 E2. subst tr2 r.
  destruct (Hnone eq_refl) as (tl & cs & -> & Htl & _).
  unfold run. rewrite (bind_Ret _ _ _ _ _ H1). cbn. rewrite (bind_Ret _ _ _ _ _ H2).
  unfold mbind, M_bind, emit, close, recv, block. rewrite Hch. cbv beta.
  rewrite <- !app_assoc. cbn [app].
  rewrite existsb_app. simpl. rewrite existsb_app, (loop_only_no_close _ _ Htl). simpl.
  rewrite orb_false_r, (closes_only_made_fresh tr Hwf).
  destruct (env_ctx_done env); simpl; try unfold emit; rewrite <- ?app_assoc; simpl.
  - eexists [EvRecv ChCtxDone], _.
    split; [rewrite <- ?app_assoc; simpl; rewrite <- ?app_assoc; reflexivity|]. repeat constructor.
  - eexists [], _.
    split; [rewrite <- ?app_assoc; simpl; rewrite <- ?app_assoc; reflexivity|]. constructor.
Qed.

(** C5 (amended): on a trace that closes only channels it made, one
    epoch's [run] never panics, and its informer starts and gate close
    follow what context creation and [StartControllers] did. If context
    creation fails, or [StartControllers] returns an error, the process
    exits ([klog.Fatalf], code 255) and the epoch has started no factory
    and closed nothing. Otherwise, right after [StartControllers] it
    starts the eight factories in a row and then closes [InformersStarted],
    the channel its own context creation made; it starts and closes
    nothing else. After that close, closing the gate a second time, on
    any continuation of the trace, panics. *)
Theorem run_closes_gate_once_after_starting_informers (c : Config.CompletedConfig) (env : Env)
    (mux : bool) (inits : list (string * InitFn)) (tr : trace)
    (Hwf : closes_only_made tr = true) :
  let ch := ChMade (length (filter is_make tr)) in
  exists t o, run c env mux inits tr = (tr ++ t, o) /\ o <> Panic /\
    (Forall (fun e => is_start e = false /\ is_close e = false) t \/
     exists t0 t2, t = t0 ++ map EvStart started_factories ++ EvClose ch :: t2 /\
       Forall (fun e => is_start e = false /\ is_close e = false) t0 /\
       Forall (fun e => is_start e = false /\ is_close e = false) t2) /\
    (forall tr1 ctx e, CreateControllerContext c env tr = (tr1, Ret (ctx, Some e)) ->
       o = Exit 255 /\ last t = Some EvFatal /\ Forall (fun e => is_start e = false /\ is_close e = false) t) /\
    (forall tr1 ctx tr2 e, CreateControllerContext c env tr = (tr1, Ret (ctx, None)) ->
       StartControllers ctx inits mux tr1 = (tr2, Ret (Some e)) ->
       o = Exit 255 /\ last t = Some EvFatal /\ Forall (fun e => is_start e = false /\ is_close e = false) t) /\
    (forall tr1 ctx tr2, CreateControllerContext c env tr = (tr1, Ret (ctx, None)) ->
       StartControllers ctx inits mux tr1 = (tr2, Ret None) ->
       InformersStarted ctx = Some ch /\
       (exists t2, tr ++ t = tr2 ++ map EvStart started_factories ++ EvClose ch :: t2 /\
                   Forall (fun e => is_start e = false /\ is_close e = false) t2) /\
       forall ext, (close (InformersStarted ctx) (tr ++ t ++ ext)).2 = Panic).
Proof.
  cbv zeta.
  destruct (run_gate_shape c env mux inits tr Hwf) as (t & o & Hrun & Hnp & Hshape).
  exists t, o. split; [exact Hrun|]. split; [exact Hnp|]. split; [exact Hshape|].
  destruct (CreateControllerContext_cases c env tr) as (tc & ctx0 & err0 & Hc & Hok & Herr).
  split; [|split].
  - intros tr1 ctx e H1.
    rewrite Hc in H1. injection H1 as E1 E2 E3. subst tr1 ctx err0.
    destruct (Herr ltac:(discriminate)) as [_ Htc].
    pose proof (run_context_failure c env mux inits tr (tr ++ tc) ctx0 e Hc) as Hf.
    rewrite Hrun in Hf. injection Hf as Ht ->. rewrite <- app_assoc in Ht. apply app_inv_head in Ht.
    subst t. split; [reflexivity|]. split; [apply last_snoc|].
    apply Forall_app. split; [|repeat constructor].
    eapply Forall_impl; [exact Htc|]. intros ev ->. split; reflexivity.
  - intros tr1 ctx tr2 e H1 H2.
    rewrite Hc in H1. injection H1 as E1 E2 E3. subst tr1 ctx err0.
    destruct (Hok eq_refl) as (-> & _ & _).
    destruct (StartControllers_trace ctx0 inits mux
                (tr ++ [EvGoResetRESTMapper; EvMakeChan (ChMade (length (filter is_make tr)))]))
      as (tl & r & Hs & Hsome & _).
    rewrite H2 in Hs. injection Hs as E1 E2. subst tr2 r.
    pose proof (run_start_failure c env mux inits tr _ _ ctx0 e Hc H2) as Hf.
    rewrite Hrun, <- !app_assoc in Hf. injection Hf as Ht ->. apply app_inv_head in Ht.
    subst t. split; [reflexivity|].
    split; [match goal with |- last ?l = _ =>
              replace l with (([EvGoResetRESTMapper; EvMakeChan (ChMade (length (filter is_make tr)))]
                               ++ tl) ++ [EvFatal]) by (rewrite <- ?app_assoc; reflexivity) end;
            apply last_snoc|].
    constructor; [split; reflexivity|]. constructor; [split; reflexivity|].
    apply Forall_app. split; [|repeat constructor].
    eapply Forall_impl; [exact (Hsome e eq_refl)|]. intros ev Hev.
    exact (loop_event_not_start_close ev Hev).
  - intros tr1 ctx tr2 H1 H2.
    destruct (run_success_gate c env mux inits tr tr1 tr2 ctx Hwf H1 H2) as (Hch & t2 & o' & Hr & Ht2).
    rewrite Hrun in Hr. injection Hr as Heq _.
    split; [exact Hch|]. split; [exists t2; split; [exact Heq | exact Ht2]|].
    intros ext. rewrite Hch. apply close_again. rewrite app_assoc, Heq. set_solver.
Qed.

(** C5 (amended), for an epoch run from the empty trace. *)
Lemma run_closes_gate_once_after_starting_informers_witness :
  closes_only_made [] = true /\
  exists t o, run (example_config 1000000000 ["*"] false false) example_env false [] [] = ([] ++ t, o) /\ o <> Panic /\
    (Forall (fun e => is_start e = false /\ is_close e = false) t \/
     exists t0 t2, t = t0 ++ map EvStart started_factories ++ EvClose (ChMade (length (filter is_make []))) :: t2 /\
       Forall (fun e => is_start e = false /\ is_close e = false) t0 /\
       Forall (fun e => is_start e = false /\ is_close e = false) t2) /\
    (forall tr1 ctx e, CreateControllerContext (example_config 1000000000 ["*"] false false) example_env [] = (tr1, Ret (ctx, Some e)) ->
       o = Exit 255 /\ last t = Some EvFatal /\ Forall (fun e => is_start e = false /\ is_close e = false) t) /\
    (forall tr1 ctx tr2 e, CreateControllerContext (example_config 1000000000 ["*"] false false) example_env [] = (tr1, Ret (ctx, None)) ->
       StartControllers ctx [] false tr1 = (tr2, Ret (Some e)) ->
       o = Exit 255 /\ last t = Some EvFatal /\ Forall (fun e => is_start e = false /\ is_close e = false) t) /\
    (forall tr1 ctx tr2, CreateControllerContext (example_config 1000000000 ["*"] false false) example_env [] = (tr1, Ret (ctx, None)) ->
       StartControllers ctx [] false tr1 = (tr2, Ret None) ->
       InformersStarted ctx = Some (ChMade (length (filter is_make []))) /\
       (exists t2, [] ++ t = tr2 ++ map EvStart started_factories ++
                             EvClose (ChMade (length (filter is_make []))) :: t2 /\
                   Forall (fun e => is_start e = false /\ is_close e = false) t2) /\
       forall ext, (close (InformersStarted ctx) ([] ++ t ++ ext)).2 = Panic).
Proof.
  split; [reflexivity|].
  exact (run_closes_gate_once_after_starting_informers (example_config 1000000000 ["*"] false false)
           example_env false [] [] eq_refl).
Defined.

Lemma run_no_leader_elect (c : Config.CompletedConfig) (env : Env) (mux : bool)
    (inits : list (string * InitFn)) (tr : trace) :
  exists t o, run c env mux inits tr = (tr ++ t, o) /\ forall l, EvGoLeaderElect l ∉ t.
Proof.
  destruct (run_shape c env mux inits tr) as
    (t & o & Hrun & [(Ho & t0 & -> & Ht0) | (tl & cs & tend & -> & Htl & Hen & Hend)]);
    eexists _, o; (split; [exact Hrun|]); intros l Hl.
  - apply elem_of_app in Hl as [Hl | Hl]; [|set_solver].
    apply (proj1 (Forall_forall _ _) Ht0) in Hl as [Hl | [Hl | Hl]]; discriminate.
  - repeat (apply elem_of_cons in Hl as [Hl|Hl]; [discriminate|]).
    apply elem_of_app in Hl as [Hl | Hl].
    + apply (proj1 (Forall_forall _ _) Htl) in Hl. discriminate.
    + apply elem_of_cons in Hl as [Hl|Hl]; [discriminate|].
      apply elem_of_app in Hl as [Hl | Hl]; [set_solver|].
      destruct Hend as [(_ & -> & _) | [(_ & ->) | (_ & ->)]]; set_solver.
Qed.

Lemma occurs_after (x y : event) (p q t1 t2 : trace) :
  y ∈ p -> x ∉ p -> t1 ++ x :: t2 = p ++ q -> y ∈ t1.
Proof.
  intros Hy Hx Heq. apply app_eq_app in Heq as (k & [[-> _] | [-> Hk]]); [set_solver|].
  destruct k as [|z k]; [set_solver|]. simpl in Hk. inversion Hk; subst. set_solver.
Qed.

(** C6: in every execution of [Run], the election of the migration lock
    starts only after the receive on [MigrationReady]. With leader election
    and migration enabled, no serving, a hostname and a signal that fires,
    that election does start. *)
Theorem Run_migration_lock_after_migration_ready (c : Config.CompletedConfig) (env : Env)
    (inits : list (string * InitFn)) (filterFunc : string -> FilterResult) (tr : trace) :
  exists t o, Run c env inits filterFunc tr = (tr ++ t, o) /\
    (forall t1 t2, t = t1 ++ EvGoLeaderElect MigrationLock :: t2 -> EvRecv ChMigrationReady ∈ t1) /\
    (LeaderElect (Generic (Config.ComponentConfig c)) = true ->
     LeaderMigrationEnabled (Generic (Config.ComponentConfig c)) = true ->
     Config.SecureServing c = false -> (exists h, env_hostname env = inl h) ->
     env_migration_ready env = true -> EvGoLeaderElect MigrationLock ∈ t).
Proof.
  unfold Run.
  assert (Hserve : exists t0 served,
            (if Config.SecureServing c then
               match env_serve env with
               | Some err => mret (Some err)
               | None => _ ← emit EvServe; mret None
               end
             else mret None) tr = (tr ++ t0, Ret served) /\ t0 ⊆ [EvServe] /\
            (Config.SecureServing c = false -> t0 = [])).
  { destruct (Config.SecureServing c); [destruct (env_serve env)|].
    - exists [], (Some e). rewrite app_nil_r. split; [reflexivity|]. split; [set_solver | discriminate].
    - exists [EvServe], None. split; [reflexivity|]. split; [set_solver | discriminate].
    - exists [], None. rewrite app_nil_r. split; [reflexivity|]. split; [set_solver | reflexivity]. }
  destruct Hserve as (t0 & served & Hs & Ht0 & Hns).
  rewrite (bind_Ret _ _ _ _ _ Hs).
  assert (Hnx : forall t1 t2 l, t0 <> t1 ++ EvGoLeaderElect l :: t2).
  { intros t1 t2 l Heq. assert (Hin : EvGoLeaderElect l ∈ t0) by (rewrite Heq; set_solver).
    apply Ht0 in Hin. set_solver. }
  destruct served as [err|].
  { exists t0, (Ret (Some err)). split; [reflexivity|]. split.
    - intros t1 t2 Heq. exfalso. exact (Hnx _ _ _ Heq).
    - intros _ _ Hsec. rewrite (Hns Hsec).
      rewrite (Hns Hsec), app_nil_r in Hs.
      destruct (Config.SecureServing c); [discriminate|]. inversion Hs. }
  destruct (LeaderElect (Generic (Config.ComponentConfig c))) eqn:Hle; simpl.
  - destruct (env_hostname env) as [h|err].
    + unfold mbind, M_bind, emit, recv, block, mret, M_ret.
      destruct (LeaderMigrationEnabled (Generic (Config.ComponentConfig c))) eqn:Hm;
        [destruct (env_migration_ready env) eqn:Hr|]; [..|]; simpl;
        [destruct (env_stop env)|..|destruct (env_stop env)]; simpl;
        rewrite <- ?app_assoc; simpl;
        eexists _, _; (split; [reflexivity|]);
        (split; [intros t1 t2 Heq | intros _ Hmig _ _ Hready]);
        try discriminate.
      all: first
        [ set_solver
        | eapply (occurs_after (EvGoLeaderElect MigrationLock) (EvRecv ChMigrationReady)
                   (t0 ++ [EvGoLeaderElect MainLock; EvRecv ChMigrationReady]) _ t1 t2);
          [set_solver | intros Hx; apply elem_of_app in Hx as [Hx|Hx];
                        [apply Ht0 in Hx; set_solver | set_solver]
          | rewrite <- Heq, <- app_assoc; reflexivity]
        | exfalso;
          assert (Hin : EvGoLeaderElect MigrationLock ∈ t1 ++ EvGoLeaderElect MigrationLock :: t2)
            by set_solver;
          rewrite <- Heq in Hin;
          apply elem_of_app in Hin as [Hin|Hin]; [apply Ht0 in Hin|]; set_solver ].
    + exists t0, (Ret (Some err)). split; [reflexivity|]. split.
      * intros t1 t2 Heq. exfalso. exact (Hnx _ _ _ Heq).
      * intros _ _ _ [h' Hh]. discriminate.
  - destruct (run_no_leader_elect c env (Config.SecureServing c) inits (tr ++ t0))
      as (tr' & o & Hrun & Hno).
    unfold mbind at 1, M_bind. rewrite Hrun.
    destruct o; simpl; rewrite <- app_assoc;
      (eexists _, _; split; [reflexivity|]);
      (split; [|intros; discriminate]);
      intros t1 t2 Heq; exfalso;
      (assert (Hin : EvGoLeaderElect MigrationLock ∈ t0 ++ tr') by (rewrite Heq; set_solver));
      (apply elem_of_app in Hin as [Hin|Hin]; [apply Ht0 in Hin; set_solver | exact (Hno _ Hin)]).
Qed.

(** C7 (code): [ResyncPeriod] can return twice the minimum period, and less
    than it. [rand.Float64()] returns [1 - 2^-53] when [Int63()] gives
    [2^63 - 1024]. With a minimum period of one second, adding [1] to that
    rounds to [2.0], so the closure returns exactly two seconds. With a
    minimum period of [2^53 + 1] ns, [float64] rounds the period down to
    [2^53], so the draw [0] gives [2^53] ns. *)
Theorem ResyncPeriod_leaves_half_open_interval :
  Float64_of_Int63 (two63 - 1024) = Some (0x1.fffffffffffffp-1)%float /\
  ResyncPeriod (example_config 1000000000 ["*"] false false) (0x1.fffffffffffffp-1)%float
    = 2 * 1000000000 /\
  Float64_of_Int63 0 = Some (0)%float /\
  ResyncPeriod (example_config (2 ^ 53 + 1) ["*"] false false) (0)%float = 2 ^ 53.
Proof. repeat split; vm_compute; reflexivity. Qed.

End AppFacts.

(* ------------------------------------------------------------------ *)
(** ** Further properties of the controller manager *)

Module ExtraFacts.
Import Discovery App.

Lemma IsControllerEnabled_loop_iff (name : string) (cs : list string) (h : bool) :
  IsControllerEnabled_loop name cs h = true <->
  (exists pre post, cs = pre ++ name :: post /\ (name ∉ pre) /\
                    (String (Ascii.ascii_of_nat 45) name) ∉ pre) \/
  ((name ∉ cs) /\ ((String (Ascii.ascii_of_nat 45) name) ∉ cs) /\ (h = true \/ "*" ∈ cs)).
Proof.
  revert h. induction cs as [|a rest IH]; intros h.
  - assert (E : IsControllerEnabled_loop name [] h = h) by (destruct h; reflexivity).
    rewrite E. split.
    + intros ->. right. split; [set_solver|]. split; [set_solver|]. left; reflexivity.
    + intros [(pre & post & Heq & _) | (_ & _ & [Hh | Hs])]; [| exact Hh | set_solver].
      destruct pre; discriminate.
  - cbn [IsControllerEnabled_loop]. destruct (String.eqb_spec a name) as [->|Hn].
    + split; [intros _; left; exists [], rest; set_solver | intros _; reflexivity].
    + destruct (String.eqb_spec a (String (Ascii.ascii_of_nat 45) name)) as [->|Hm].
      * split; [discriminate|]. intros [(pre & post & Heq & Hpre & Hpre') | (_ & Hmn & _)].
        -- destruct pre as [|b pre]; simpl in Heq; inversion Heq; subst.
           ++ congruence.
           ++ set_solver.
        -- set_solver.
      * rewrite IH. split.
        -- intros [(pre & post & Heq & Hpre & Hpre') | (Hn' & Hm' & Hs)].
           ++ left. exists (a :: pre), post. rewrite Heq. set_solver.
           ++ right. split; [set_solver|]. split; [set_solver|].
              destruct Hs as [Hs | Hs]; [|right; set_solver].
              apply orb_true_iff in Hs as [Hs | Hs]; [left; exact Hs|].
              right. apply String.eqb_eq in Hs. subst. set_solver.
        -- intros [(pre & post & Heq & Hpre & Hpre') | (Hn' & Hm' & Hs)].
           ++ destruct pre as [|b pre]; simpl in Heq; inversion Heq; subst; [congruence|].
              left. exists pre, post. set_solver.
           ++ right. split; [set_solver|]. split; [set_solver|].
              destruct Hs as [-> | Hs]; [left; reflexivity|].
              apply elem_of_cons in Hs as [<- | Hs]; [left; apply orb_true_iff; right; apply String.eqb_refl|].
              right; exact Hs.
Qed.

(** X1: [IsControllerEnabled] enables a controller exactly when the first
    entry of the configured list that names it, plainly or as ["-name"],
    is the plain name, or when no entry names it and ["*"] is listed
    (no controller is disabled by default). *)
Theorem IsControllerEnabled_iff (c : ControllerContext) (name : string) :
  let controllers := Controllers (Generic (ComponentConfig c)) in
  IsControllerEnabled c name = true <->
  (exists pre post, controllers = pre ++ name :: post /\
     (name ∉ pre) /\ ((String (Ascii.ascii_of_nat 45) name) ∉ pre)) \/
  ((name ∉ controllers) /\ ((String (Ascii.ascii_of_nat 45) name) ∉ controllers) /\
   "*" ∈ controllers).
Proof.
  cbv zeta. unfold IsControllerEnabled. rewrite IsControllerEnabled_loop_iff.
  split; (intros [H | (H1 & H2 & H3)]; [left; exact H | right; split; [exact H1|]; split; [exact H2|]]);
    [destruct H3 as [H3|H3]; [discriminate | exact H3] | right; exact H3].
Qed.


Lemma count_slash_app (a b : string) :
  count_slash (String.append a b) = (count_slash a + count_slash b)%nat.
Proof. induction a as [|c a IH]; simpl; [reflexivity|]. rewrite IH. lia. Qed.

Lemma split_at_slash_app (g v : string) :
  count_slash g = 0%nat -> split_at_slash (String.append g (String slash v)) = (g, v).
Proof.
  induction g as [|c g IH]; simpl; intros H.
  - reflexivity.
  - destruct (Ascii.eqb c slash); [discriminate|]. rewrite IH by exact H. reflexivity.
Qed.

Lemma ParseGroupVersion_String (gv : GroupVersion)
    (Hg : count_slash (Group gv) = 0%nat) (Hv : count_slash (Version gv) = 0%nat) :
  ParseGroupVersion (GroupVersion_String gv) = (gv, None).
Proof.
  destruct gv as [g v]. simpl in Hg, Hv. unfold GroupVersion_String, ParseGroupVersion. simpl.
  destruct (Nat.ltb_spec 0 (String.length g)) as [Hlen|Hlen].
  - destruct g as [|c g']; [simpl in Hlen; lia|].
    assert (Hc : Ascii.eqb c slash = false)
      by (simpl in Hg; destruct (Ascii.eqb c slash); [discriminate | reflexivity]).
    replace ((String.length (String.append (String c g') (String slash v)) =? 0)%nat ||
             String.eqb (String.append (String c g') (String slash v)) (String slash EmptyString))%bool
      with false.
    2:{ symmetry. apply orb_false_intro; [reflexivity|].
        apply String.eqb_neq. intros Heq. simpl in Heq. inversion Heq; subst.
        rewrite Ascii.eqb_refl in Hc. discriminate. }
    assert (Hg' : count_slash g' = 0%nat) by (simpl in Hg; rewrite Hc in Hg; exact Hg).
    rewrite count_slash_app. simpl. rewrite Hc, Hg', Hv. simpl.
    rewrite ?Hc, (split_at_slash_app g' v Hg'), ?Hc. reflexivity.
  - destruct g; [|simpl in Hlen; lia]. simpl.
    destruct v as [|c v']; [reflexivity|]. simpl.
    assert (Hc : Ascii.eqb c slash = false)
      by (simpl in Hv; destruct (Ascii.eqb c slash); [discriminate | reflexivity]).
    replace (String.eqb (String c v') (String slash EmptyString)) with false.
    2:{ symmetry. apply String.eqb_neq. intros Heq. inversion Heq; subst.
        rewrite Ascii.eqb_refl in Hc. discriminate. }
    simpl in Hv |- *. rewrite Hc in Hv |- *. simpl in Hv. rewrite Hv. reflexivity.
Qed.

(** X3: a non-empty discovery answer whose group versions are all printed
    from slash-free groups and versions never makes
    [GetAvailableResources] fail, whatever partial error came with it; the
    map holds exactly the resources of each list under its group
    version. *)
Theorem GetAvailableResources_well_formed_answer (ls : list APIResourceList) (err : option error)
    (Hne : ls <> [])
    (Hwf : Forall (fun l => exists gv, GroupVersion_ l = GroupVersion_String gv /\
                                       count_slash (Group gv) = 0%nat /\
                                       count_slash (Version gv) = 0%nat) ls) :
  (GetAvailableResources (ls, err)).2 = None /\
  forall k, (GetAvailableResources (ls, err)).1 !! k = Some true <->
    exists l gv res, l ∈ ls /\ GroupVersion_ l = GroupVersion_String gv /\
      count_slash (Group gv) = 0%nat /\ count_slash (Version gv) = 0%nat /\
      res ∈ APIResources l /\ k = WithResource gv (Name res).
Proof.
  unfold GetAvailableResources. destruct ls as [|l0 ls0]; [congruence|]. cbn [length Nat.eqb].
  destruct (DiscoveryFacts.collect_resources_cases (l0 :: ls0) ∅)
    as [(Hn & _ & Hk) | (_ & _ & Hex)].
  - split; [exact Hn|]. intros k. rewrite (proj1 (Hk k)), lookup_empty.
    unfold in_resource_lists, in_resources. rewrite Exists_exists. split.
    + intros [H|(l & Hl & r & Hr & ->)]; [discriminate|].
      destruct (proj1 (Forall_forall _ _) Hwf l Hl) as (gv & Hgv & Hg & Hv).
      rewrite Hgv, (ParseGroupVersion_String gv Hg Hv). simpl.
      exists l, gv, r. repeat split; assumption.
    + intros (l & gv & r & Hl & Hgv & Hg & Hv & Hr & ->). right. exists l. split; [exact Hl|].
      exists r. split; [exact Hr|]. rewrite Hgv, (ParseGroupVersion_String gv Hg Hv). reflexivity.
  - exfalso. apply Exists_exists in Hex as (l & Hl & Hs).
    destruct (proj1 (Forall_forall _ _) Hwf l Hl) as (gv & Hgv & Hg & Hv).
    rewrite Hgv, (ParseGroupVersion_String gv Hg Hv) in Hs. destruct Hs as [? Hs]. discriminate.
Qed.

Lemma GetAvailableResources_well_formed_answer_witness :
  (GetAvailableResources
     ([{| GroupVersion_ := "apps/v1"; APIResources := [{| Name := "deployments" |}] |};
       {| GroupVersion_ := "v1"; APIResources := [{| Name := "pods" |}] |}], None)).2 = None /\
  forall k, (GetAvailableResources
     ([{| GroupVersion_ := "apps/v1"; APIResources := [{| Name := "deployments" |}] |};
       {| GroupVersion_ := "v1"; APIResources := [{| Name := "pods" |}] |}], None)).1 !! k = Some true <->
    exists l gv res,
      l ∈ [{| GroupVersion_ := "apps/v1"; APIResources := [{| Name := "deployments" |}] |};
           {| GroupVersion_ := "v1"; APIResources := [{| Name := "pods" |}] |}] /\
      GroupVersion_ l = GroupVersion_String gv /\
      count_slash (Group gv) = 0%nat /\ count_slash (Version gv) = 0%nat /\
      res ∈ APIResources l /\ k = WithResource gv (Name res).
Proof.
  apply GetAvailableResources_well_formed_answer; [discriminate|].
  constructor; [exists {| Group := "apps"; Version := "v1" |}|constructor; [exists {| Group := ""; Version := "v1" |}|constructor]];
    (split; [reflexivity|]); split; reflexivity.
Defined.

(** X4: a successful [GetAvailableResources] does not depend on the order
    of the resource lists nor on the partial error: any permutation of
    the lists gives the same map, without error. *)
Theorem GetAvailableResources_order_independent (l l' : list APIResourceList)
    (err err' : option error) (m : gmap GroupVersionResource bool)
    (Hok : GetAvailableResources (l, err) = (m, None)) (Hperm : l ≡ₚ l') :
  GetAvailableResources (l', err') = (m, None).
Proof.
  unfold GetAvailableResources in *. rewrite <- (Permutation_length Hperm).
  destruct (length l =? 0)%nat; [discriminate|].
  destruct (DiscoveryFacts.collect_resources_cases l ∅) as [(Hn & Hall & Hk) | (Hs & _ & _)];
    [|rewrite Hok in Hs; destruct Hs; discriminate].
  rewrite Hok in Hk. simpl in Hk.
  destruct (DiscoveryFacts.collect_resources_cases l' ∅) as [(Hn' & Hall' & Hk') | (Hs' & _ & Hex)].
  - destruct (collect_resources l' ∅) as [m' e'] eqn:Hc. simpl in Hn', Hk'. subst e'.
    f_equal. apply map_eq. intros k.
    destruct (Hk k) as [Hk1 Hk2]. destruct (Hk' k) as [Hk1' Hk2'].
    assert (Hiff : in_resource_lists l k <-> in_resource_lists l' k)
      by (unfold in_resource_lists; rewrite Hperm; reflexivity).
    rewrite lookup_empty in Hk1, Hk2, Hk1', Hk2'.
    destruct (m !! k) as [b|] eqn:Hm; rewrite ?Hm in Hk1, Hk2.
    + assert (Hin : in_resource_lists l k).
      { destruct b.
        - destruct (proj1 Hk1 eq_refl) as [H|H]; [discriminate | exact H].
        - exfalso. assert (Hnot : ~ in_resource_lists l k)
            by (intros H; discriminate (proj2 Hk1 (or_intror H))).
          discriminate (proj2 Hk2 (conj eq_refl Hnot)). }
      assert (Hb : b = true)
        by (destruct b; [reflexivity|]; discriminate (proj2 Hk1 (or_intror Hin))).
      subst b. apply (proj2 Hk1'). right. apply Hiff. exact Hin.
    + apply (proj2 Hk2'). split; [reflexivity|]. rewrite <- Hiff. apply (proj1 Hk2 eq_refl).
  - exfalso. rewrite <- Hperm in Hex. unfold parses in Hall.
    apply Exists_exists in Hex as (x & Hx & [e He]).
    rewrite Forall_forall in Hall. rewrite (Hall x Hx) in He. discriminate.
Qed.

Lemma GetAvailableResources_order_independent_witness :
  let l := [{| GroupVersion_ := "v1"; APIResources := [{| Name := "pods" |}] |};
            {| GroupVersion_ := "apps/v1"; APIResources := [{| Name := "deployments" |}] |}] in
  GetAvailableResources (l, None) = ((GetAvailableResources (l, None)).1, None) /\
  l ≡ₚ reverse l /\
  GetAvailableResources (reverse l, Some (ErrExternal "partial")) = ((GetAvailableResources (l, None)).1, None).
Proof.
  intros l.
  assert (Hok : GetAvailableResources (l, None) = ((GetAvailableResources (l, None)).1, None))
    by (vm_compute; reflexivity).
  assert (Hp : l ≡ₚ reverse l) by (symmetry; apply reverse_Permutation).
  split; [exact Hok|]. split; [exact Hp|].
  exact (GetAvailableResources_order_independent l (reverse l) None (Some (ErrExternal "partial")) _ Hok Hp).
Defined.

Lemma controller_check_events (name : string) (ctrl : option Controller) (mux : bool) (tr : trace) :
  exists tc chk, controller_check name ctrl mux tr = (tr ++ tc, Ret chk) /\
    (tc = [] \/ (mux = true /\ tc = [EvUnlistedHandle (debug_path name);
                                    EvUnlistedHandlePrefix (String.append (debug_path name) "/")])).
Proof.
  unfold debug_path.
  destruct ctrl as [[dbg hc]|];
    [|exists [], (NamedPingChecker name); rewrite app_nil_r; split; [reflexivity | left; reflexivity]].
  destruct dbg as [[h|]|]; [destruct mux|..];
    unfold controller_check, mbind, M_bind, emit, mret, M_ret; simpl;
    first
      [ eexists [], _; rewrite app_nil_r; split; [reflexivity | left; reflexivity]
      | eexists _, _; split; [rewrite <- app_assoc; reflexivity | right; split; reflexivity] ].
Qed.

Lemma enabled_names_cons (cctx : ControllerContext) (name : string) (f : InitFn) reg :
  enabled_names cctx ((name, f) :: reg) =
  if IsControllerEnabled cctx name then name :: enabled_names cctx reg else enabled_names cctx reg.
Proof.
  unfold enabled_names. rewrite filter_cons. simpl.
  destruct (IsControllerEnabled cctx name); case_decide; try congruence; reflexivity.
Qed.

Lemma invoked_app (a b : trace) : invoked (a ++ b) = invoked a ++ invoked b.
Proof. unfold invoked. apply omap_app. Qed.

Lemma handles_ok_app (a b : trace) : handles_ok a -> handles_ok b -> handles_ok (a ++ b).
Proof.
  intros [Ha1 Ha2] [Hb1 Hb2]. split.
  - intros p Hp. apply elem_of_app in Hp as [Hp|Hp].
    + destruct (Ha1 p Hp) as (n & -> & Hn & Hq). exists n. rewrite invoked_app. set_solver.
    + destruct (Hb1 p Hp) as (n & -> & Hn & Hq). exists n. rewrite invoked_app. set_solver.
  - intros p Hp. apply elem_of_app in Hp as [Hp|Hp].
    + destruct (Ha2 p Hp) as (n & -> & Hn). exists n. rewrite invoked_app. set_solver.
    + destruct (Hb2 p Hp) as (n & -> & Hn). exists n. rewrite invoked_app. set_solver.
Qed.

Lemma start_loop_events (cctx : ControllerContext) (reg : list (string * InitFn)) (mux : bool)
    (checks : list HealthChecker) (tr : trace) :
  exists t r, start_loop cctx reg mux checks tr = (tr ++ t, Ret r) /\
    invoked t `prefix_of` enabled_names cctx reg /\
    (forall cs, r = inr cs -> invoked t = enabled_names cctx reg) /\
    (mux = false -> no_handles t) /\ handles_ok t.
Proof.
  revert checks tr. induction reg as [|[name f] reg IH]; intros checks tr.
  - exists [], (inr checks). rewrite app_nil_r. split; [reflexivity|].
    split; [reflexivity|]. split; [reflexivity|]. split; [intros _ p; set_solver|].
    split; intros p Hp; inversion Hp.
  - rewrite AppFacts.start_loop_cons, enabled_names_cons.
    destruct (IsControllerEnabled cctx name) eqn:Hen; simpl.
    + assert (Hpre : handles_ok [EvInvoke name; EvReturn name] /\
                     (mux = false -> no_handles [EvInvoke name; EvReturn name]) /\
                     invoked [EvInvoke name; EvReturn name] = [name]).
      { split; [split; intros p Hp; set_solver|]. split; [intros _ p; set_solver | reflexivity]. }
      destruct Hpre as (Hh0 & Hn0 & Hi0).
      destruct (f cctx) as [[ctrl started] [e|]].
      * exists [EvInvoke name; EvReturn name], (inl e). split; [reflexivity|].
        rewrite Hi0. split; [apply prefix_cons, prefix_nil|]. split; [discriminate|].
        split; assumption.
      * destruct started; simpl.
        -- destruct (controller_check_events name ctrl mux (tr ++ [EvInvoke name; EvReturn name]))
             as (tc & chk & Hc & Htc).
           rewrite (AppFacts.bind_Ret _ _ _ _ _ Hc).
           destruct (IH (checks ++ [chk]) ((tr ++ [EvInvoke name; EvReturn name]) ++ tc))
             as (t & r & Hl & Hp & Hall & Hnm & Hok).
           exists ([EvInvoke name; EvReturn name] ++ tc ++ t), r.
           rewrite Hl, <- !app_assoc. split; [reflexivity|].
           assert (Hitc : invoked tc = []) by (destruct Htc as [-> | [_ ->]]; reflexivity).
           rewrite !invoked_app, Hi0, Hitc. simpl.
           split; [apply prefix_cons, Hp|]. split; [intros cs Hr; rewrite (Hall cs Hr); reflexivity|].
           split.
           { intros Hm p. specialize (Hnm Hm p). destruct Htc as [-> | [Hmt _]]; [|congruence].
             set_solver. }
           change (handles_ok (([EvInvoke name; EvReturn name] ++ tc) ++ t)).
           apply handles_ok_app; [|exact Hok].
           destruct Htc as [-> | [_ ->]]; [rewrite app_nil_r; exact Hh0|].
           split; intros p Hq; apply list_elem_of_In in Hq; simpl in Hq;
             destruct Hq as [H|[H|[H|[H|[]]]]]; inversion H; subst;
             exists name; simpl; (split; [reflexivity|]); set_solver.
        -- destruct (IH checks (tr ++ [EvInvoke name; EvReturn name])) as (t & r & Hl & Hp & Hall & Hnm & Hok).
           exists ([EvInvoke name; EvReturn name] ++ t), r.
           rewrite Hl, <- app_assoc. split; [reflexivity|].
           rewrite invoked_app, Hi0. simpl.
           split; [apply prefix_cons, Hp|]. split; [intros cs Hr; rewrite (Hall cs Hr); reflexivity|].
           split; [intros Hm p; specialize (Hnm Hm p); set_solver|].
           change (handles_ok ([EvInvoke name; EvReturn name] ++ t)).
           apply handles_ok_app; assumption.
    + destruct (f cctx) as [[c0 s0] err]. exact (IH checks tr).
Qed.

Lemma StartControllers_events (cctx : ControllerContext) (reg : list (string * InitFn)) (mux : bool)
    (tr : trace) :
  exists t r, StartControllers cctx reg mux tr = (tr ++ t, Ret r) /\
    invoked t `prefix_of` enabled_names cctx reg /\
    (r = None -> invoked t = enabled_names cctx reg) /\
    (mux = false -> no_handles t) /\ handles_ok t /\
    (forall ev, ev ∈ t -> is_loop_event ev = true \/ is_add_health_checker ev = true).
Proof.
  destruct (start_loop_events cctx reg mux [] tr) as (t & r & Hl & Hp & Hall & Hnm & Hok).
  destruct (AppFacts.start_loop_trace cctx reg mux [] tr) as (t' & r' & Hl' & Hloop & _).
  rewrite Hl in Hl'. inversion Hl' as [[Ht Hr]]. apply app_inv_head in Ht. subst t' r'.
  unfold StartControllers. rewrite (AppFacts.bind_Ret _ _ _ _ _ Hl).
  destruct r as [e|cs].
  - exists t, (Some e). split; [reflexivity|]. split; [exact Hp|]. split; [discriminate|].
    split; [exact Hnm|]. split; [exact Hok|].
    intros ev Hev. left. exact (proj1 (Forall_forall _ _) Hloop ev Hev).
  - exists (t ++ [EvAddHealthChecker cs]), None.
    unfold mbind, M_bind, emit, mret, M_ret. rewrite <- app_assoc. split; [reflexivity|].
    rewrite invoked_app. simpl. rewrite app_nil_r.
    split; [exact Hp|]. split; [intros _; exact (Hall cs eq_refl)|].
    split; [intros Hm p; specialize (Hnm Hm p); set_solver|].
    split.
    + apply handles_ok_app; [exact Hok|]. split; intros p Hq; set_solver.
    + intros ev Hev. apply elem_of_app in Hev as [Hev|Hev].
      * left. exact (proj1 (Forall_forall _ _) Hloop ev Hev).
      * right. apply list_elem_of_singleton in Hev. subst. reflexivity.
Qed.

(** X5: [StartControllers] calls the init functions of enabled controllers
    only, one by one in the registry's order; when it returns no error it
    has called every enabled one. *)
Theorem StartControllers_invokes_enabled_in_order (cctx : ControllerContext)
    (controllers : list (string * InitFn)) (mux : bool) (tr : trace) :
  exists t r, StartControllers cctx controllers mux tr = (tr ++ t, Ret r) /\
    invoked t `prefix_of` enabled_names cctx controllers /\
    (r = None -> invoked t = enabled_names cctx controllers).
Proof.
  destruct (StartControllers_events cctx controllers mux tr) as (t & r & H & Hp & Hall & _).
  exists t, r. auto.
Qed.

(** X6: [StartControllers] mounts no debug handler without an unsecured
    mux; every handler it mounts is at [/debug/controllers/<name>] of a
    controller it has started, and comes with the prefix handler at the
    same path followed by a slash. *)
Theorem StartControllers_mounts_debug_handlers (cctx : ControllerContext)
    (controllers : list (string * InitFn)) (mux : bool) (tr : trace) :
  exists t r, StartControllers cctx controllers mux tr = (tr ++ t, Ret r) /\
    (mux = false -> forall p, (EvUnlistedHandle p ∉ t) /\ (EvUnlistedHandlePrefix p ∉ t)) /\
    (forall p, EvUnlistedHandle p ∈ t ->
       exists n, p = debug_path n /\ n ∈ invoked t /\
                 EvUnlistedHandlePrefix (String.append p "/") ∈ t) /\
    (forall p, EvUnlistedHandlePrefix p ∈ t ->
       exists n, p = String.append (debug_path n) "/" /\ n ∈ invoked t).
Proof.
  destruct (StartControllers_events cctx controllers mux tr) as (t & r & H & _ & _ & Hnm & [H1 H2] & _).
  exists t, r. split; [exact H|]. split; [exact Hnm|]. split; assumption.
Qed.

Lemma elem_of_invoked (n : string) (t : trace) : n ∈ invoked t <-> EvInvoke n ∈ t.
Proof.
  unfold invoked. rewrite list_elem_of_omap. split.
  - intros (e & He & Hs). destruct e; try discriminate. inversion Hs; subst. exact He.
  - intros H. exists (EvInvoke n). split; [exact H | reflexivity].
Qed.

Lemma enabled_names_sub (cctx : ControllerContext) (reg : list (string * InitFn)) (n : string) :
  n ∈ enabled_names cctx reg -> n ∈ reg.*1.
Proof.
  unfold enabled_names. rewrite !list_elem_of_fmap.
  intros (p & -> & Hp). apply list_elem_of_filter in Hp. exists p. tauto.
Qed.

Lemma run_invoked (c : Config.CompletedConfig) (env : Env) (mux : bool)
    (inits : list (string * InitFn)) (tr : trace) :
  exists t o, run c env mux inits tr = (tr ++ t, o) /\ forall n, EvInvoke n ∈ t -> n ∈ inits.*1.
Proof.
  unfold run.
  destruct (AppFacts.CreateControllerContext_cases c env tr) as (tc & ctx & err & Hc & Hok & Herr).
  rewrite (AppFacts.bind_Ret _ _ _ _ _ Hc).
  destruct err as [e|].
  - destruct (Herr ltac:(discriminate)) as [_ Htc].
    exists (tc ++ [EvFatal]), (Exit 255). cbn. unfold fatal. rewrite <- app_assoc.
    split; [reflexivity|]. intros n Hn. apply elem_of_app in Hn as [Hn|Hn]; [|set_solver].
    apply (proj1 (Forall_forall _ _) Htc) in Hn. discriminate.
  - destruct (Hok eq_refl) as (-> & Hch & Hcfg). cbn.
    destruct (StartControllers_events ctx inits mux
                (tr ++ [EvGoResetRESTMapper; EvMakeChan (ChMade (length (filter is_make tr)))]))
      as (t & r & Hs & Hp & _ & _ & _ & _).
    assert (Ht : forall n, EvInvoke n ∈ t -> n ∈ inits.*1).
    { intros n Hn. apply (enabled_names_sub ctx). apply (elem_of_prefix (invoked t)); [|exact Hp].
      apply elem_of_invoked. exact Hn. }
    rewrite (AppFacts.bind_Ret _ _ _ _ _ Hs).
    destruct r as [e|].
    + exists ([EvGoResetRESTMapper; EvMakeChan (ChMade (length (filter is_make tr)))] ++ t ++ [EvFatal]),
        (Exit 255).
      unfold fatal. rewrite <- !app_assoc. split; [reflexivity|].
      intros n Hn. rewrite !elem_of_app in Hn. destruct Hn as [Hn|[Hn|Hn]]; [set_solver| exact (Ht n Hn) | set_solver].
    + unfold mbind, M_bind, emit, close, recv, block. rewrite Hch. cbv beta.
      rewrite <- !app_assoc. cbn [app].
      destruct (existsb _ _); [|destruct (env_ctx_done env)]; simpl;
        try unfold emit; rewrite <- ?app_assoc; simpl;
        (eexists _, _; split; [reflexivity|]).
      all: intros n Hn; repeat (apply elem_of_cons in Hn as [Hn|Hn]; [discriminate|]);
        repeat (apply elem_of_app in Hn as [Hn|Hn]; [|set_solver]); exact (Ht n Hn).
Qed.

Lemma Run_cases (c : Config.CompletedConfig) (env : Env)
    (inits : list (string * InitFn)) (filterFunc : string -> FilterResult) (tr : trace) :
  exists t0 t o, Run c env inits filterFunc tr = (tr ++ t0 ++ t, o) /\ t0 ⊆ [EvServe] /\
   ((exists e, o = Ret (Some e) /\ t = [] /\
       ((Config.SecureServing c = true /\ env_serve env = Some e /\ t0 = []) \/
        (LeaderElect (Generic (Config.ComponentConfig c)) = true /\ env_hostname env = inr e))) \/
    (LeaderElect (Generic (Config.ComponentConfig c)) = false /\ (forall e, o <> Ret (Some e)) /\
     exists o', run c env (Config.SecureServing c) inits (tr ++ t0) = ((tr ++ t0) ++ t, o')) \/
    (LeaderElect (Generic (Config.ComponentConfig c)) = true /\ (forall e, o <> Ret (Some e)) /\
     t ⊆ [EvGoLeaderElect MainLock; EvRecv ChMigrationReady; EvGoLeaderElect MigrationLock;
          EvRecv ChStop])).
Proof.
  unfold Run.
  assert (Hserve : exists t0 served,
            (if Config.SecureServing c then
               match env_serve env with
               | Some err => mret (Some err)
               | None => _ ← emit EvServe; mret None
               end
             else mret None) tr = (tr ++ t0, Ret served) /\ t0 ⊆ [EvServe] /\
            (forall e, served = Some e ->
               Config.SecureServing c = true /\ env_serve env = Some e /\ t0 = [])).
  { destruct (Config.SecureServing c); [destruct (env_serve env)|].
    - exists [], (Some e). rewrite app_nil_r. split; [reflexivity|]. split; [set_solver|].
      intros e' He'. inversion He'; subst. auto.
    - exists [EvServe], None. split; [reflexivity|]. split; [set_solver | discriminate].
    - exists [], None. rewrite app_nil_r. split; [reflexivity|]. split; [set_solver | discriminate]. }
  destruct Hserve as (t0 & served & Hs & Ht0 & Hsome).
  rewrite (AppFacts.bind_Ret _ _ _ _ _ Hs).
  destruct served as [err|].
  { exists t0, [], (Ret (Some err)). rewrite app_nil_r. split; [reflexivity|]. split; [exact Ht0|].
    left. exists err. split; [reflexivity|]. split; [reflexivity|]. left. exact (Hsome err eq_refl). }
  destruct (LeaderElect (Generic (Config.ComponentConfig c))) eqn:Hle; simpl.
  - destruct (env_hostname env) as [h|err].
    + unfold mbind, M_bind, emit, recv, block, mret, M_ret.
      destruct (LeaderMigrationEnabled (Generic (Config.ComponentConfig c)));
        [destruct (env_migration_ready env)|]; simpl;
        [destruct (env_stop env)|..|destruct (env_stop env)]; simpl;
        rewrite <- ?app_assoc; simpl;
        (eexists t0, _, _; split; [reflexivity|]); (split; [exact Ht0|]);
        right; right; (split; [reflexivity|]); (split; [intros e He; discriminate|]); set_solver.
    + exists t0, [], (Ret (Some err)). rewrite app_nil_r. split; [reflexivity|]. split; [exact Ht0|].
      left. exists err. split; [reflexivity|]. split; [reflexivity|]. right. split; reflexivity.
  - destruct (AppFacts.run_no_leader_elect c env (Config.SecureServing c) inits (tr ++ t0))
      as (tr' & o & Hrun & _).
    unfold mbind at 1, M_bind. rewrite Hrun.
    destruct o; simpl; rewrite <- app_assoc;
      (eexists t0, tr', _; split; [reflexivity|]); (split; [exact Ht0|]);
      right; left; (split; [reflexivity|]); (split; [intros e He; discriminate|]);
      eexists; exact Hrun.
Qed.

Lemma app_inv_l (a b c : trace) : a ++ b = a ++ c -> b = c.
Proof. intros H. apply (app_inv_head a). exact H. Qed.

(** X7: [Run] returns an error only when serving fails, and then it has
    done nothing else, or when, with leader election, [os.Hostname]
    fails, and then at most the server was started. *)
Theorem Run_error_sources (c : Config.CompletedConfig) (env : Env)
    (inits : list (string * InitFn)) (filterFunc : string -> FilterResult) (tr : trace) :
  exists t o, Run c env inits filterFunc tr = (tr ++ t, o) /\
    forall e, o = Ret (Some e) ->
      (Config.SecureServing c = true /\ env_serve env = Some e /\ t = []) \/
      (LeaderElect (Generic (Config.ComponentConfig c)) = true /\ env_hostname env = inr e /\
       t ⊆ [EvServe]).
Proof.
  destruct (Run_cases c env inits filterFunc tr) as
    (t0 & t & o & HR & Ht0 & [(e & -> & -> & He) | [(_ & Hne & _) | (_ & Hne & _)]]).
  - exists t0, (Ret (Some e)). rewrite app_nil_r in HR. split; [exact HR|].
    intros e' He'. inversion He'; subst e'.
    destruct He as [(Hs & Hv & ->) | (Hl & Hh)]; [left; auto | right; auto].
  - exists (t0 ++ t), o. split; [exact HR|]. intros e He. exfalso. exact (Hne e He).
  - exists (t0 ++ t), o. split; [exact HR|]. intros e He. exfalso. exact (Hne e He).
Qed.

(** X8: with leader election, [Run] itself starts no controller and no
    informer: it only serves, spawns the elections and waits. Without
    it, [Run] spawns no election and calls only init functions of the
    registry. *)
Theorem Run_leader_election_separates_controllers (c : Config.CompletedConfig) (env : Env)
    (inits : list (string * InitFn)) (filterFunc : string -> FilterResult) (tr : trace) :
  exists t o, Run c env inits filterFunc tr = (tr ++ t, o) /\
    (LeaderElect (Generic (Config.ComponentConfig c)) = true ->
     forall ev, ev ∈ t ->
       ev = EvServe \/ ev = EvGoLeaderElect MainLock \/ ev = EvRecv ChMigrationReady \/
       ev = EvGoLeaderElect MigrationLock \/ ev = EvRecv ChStop) /\
    (LeaderElect (Generic (Config.ComponentConfig c)) = false ->
     (forall l, EvGoLeaderElect l ∉ t) /\ (forall n, EvInvoke n ∈ t -> n ∈ inits.*1)).
Proof.
  destruct (Run_cases c env inits filterFunc tr) as
    (t0 & t & o & HR & Ht0 & [(e & -> & -> & He) | [(Hl & _ & o' & Hrun) | (Hl & _ & Ht)]]).
  - exists t0, (Ret (Some e)). rewrite app_nil_r in HR. split; [exact HR|].
    split; [intros _ ev Hev; apply Ht0 in Hev; set_solver|].
    intros _. split; [intros l Hx; apply Ht0 in Hx; set_solver|].
    intros n Hx. apply Ht0 in Hx. set_solver.
  - exists (t0 ++ t), o. split; [exact HR|]. rewrite Hl. split; [discriminate|]. intros _.
    destruct (AppFacts.run_no_leader_elect c env (Config.SecureServing c) inits (tr ++ t0))
      as (t1 & o1 & Hr1 & Hno).
    destruct (run_invoked c env (Config.SecureServing c) inits (tr ++ t0)) as (t2 & o2 & Hr2 & Hinv).
    rewrite Hrun in Hr1, Hr2. injection Hr1 as Ht1 _. injection Hr2 as Ht2 _.
    apply app_inv_l in Ht1, Ht2. subst t1 t2.
    split.
    + intros l Hx. apply elem_of_app in Hx as [Hx|Hx]; [apply Ht0 in Hx; set_solver | exact (Hno l Hx)].
    + intros n Hx. apply elem_of_app in Hx as [Hx|Hx]; [apply Ht0 in Hx; set_solver | exact (Hinv n Hx)].
  - exists (t0 ++ t), o. split; [exact HR|]. rewrite Hl. split; [|discriminate].
    intros _ ev Hev. apply elem_of_app in Hev as [Hev|Hev]; [apply Ht0 in Hev; set_solver|].
    apply Ht in Hev. set_solver.
Qed.

Lemma createInitializersFunc_names (filterFunc : string -> FilterResult) (expected : FilterResult)
    (inits : list (string * InitFn)) (n : string) :
  n ∈ (createInitializersFunc filterFunc expected inits).*1 -> n ∈ inits.*1 /\ filterFunc n = expected.
Proof.
  unfold createInitializersFunc. rewrite !list_elem_of_fmap.
  intros (p & -> & Hp). apply list_elem_of_filter in Hp as [Hf Hp].
  split; [exists p; auto|]. apply bool_decide_spec in Hf. exact Hf.
Qed.

(** X9: with leader migration enabled, the main lock's epoch calls only
    non-migrated controllers of the registry, the migration lock's epoch
    only migrated ones, so no controller is started under both locks. *)
Theorem OnStartedLeading_split_registry (c : Config.CompletedConfig) (env : Env)
    (inits : list (string * InitFn)) (filterFunc : string -> FilterResult) (tr1 tr2 : trace)
    (Hmig : LeaderMigrationEnabled (Generic (Config.ComponentConfig c)) = true) :
  exists t1 o1 t2 o2,
    OnStartedLeading_main c env inits filterFunc tr1 = (tr1 ++ t1, o1) /\
    OnStartedLeading_migration c env inits filterFunc tr2 = (tr2 ++ t2, o2) /\
    (forall n, EvInvoke n ∈ t1 -> n ∈ inits.*1 /\ filterFunc n = ControllerNonMigrated) /\
    (forall n, EvInvoke n ∈ t2 -> n ∈ inits.*1 /\ filterFunc n = ControllerMigrated) /\
    (forall n, EvInvoke n ∈ t1 -> EvInvoke n ∉ t2).
Proof.
  unfold OnStartedLeading_main, OnStartedLeading_migration. rewrite Hmig.
  destruct (run_invoked c env (Config.SecureServing c)
              (createInitializersFunc filterFunc ControllerNonMigrated inits) tr1)
    as (t1 & o1 & H1 & Hi1).
  destruct (run_invoked c env (Config.SecureServing c)
              (createInitializersFunc filterFunc ControllerMigrated inits) tr2)
    as (t2 & o2 & H2 & Hi2).
  exists t1, o1, t2, o2. split; [exact H1|]. split; [exact H2|].
  assert (Hm1 : forall n, EvInvoke n ∈ t1 -> n ∈ inits.*1 /\ filterFunc n = ControllerNonMigrated)
    by (intros n Hn; apply createInitializersFunc_names; exact (Hi1 n Hn)).
  assert (Hm2 : forall n, EvInvoke n ∈ t2 -> n ∈ inits.*1 /\ filterFunc n = ControllerMigrated)
    by (intros n Hn; apply createInitializersFunc_names; exact (Hi2 n Hn)).
  split; [exact Hm1|]. split; [exact Hm2|].
  intros n Hn Hn'. destruct (Hm1 n Hn) as [_ E1]. destruct (Hm2 n Hn') as [_ E2].
  rewrite E1 in E2. discriminate.
Qed.

Lemma OnStartedLeading_split_registry_witness :
  LeaderMigrationEnabled (Generic (Config.ComponentConfig (example_config 1 ["*"] true true))) = true /\
  exists t1 o1 t2 o2,
    OnStartedLeading_main (example_config 1 ["*"] true true) example_env [] (fun _ => ControllerMigrated)
      [] = ([] ++ t1, o1) /\
    OnStartedLeading_migration (example_config 1 ["*"] true true) example_env []
      (fun _ => ControllerMigrated) [] = ([] ++ t2, o2) /\
    (forall n, EvInvoke n ∈ t1 -> n ∈ ([] : list (string * InitFn)).*1 /\
                                 (fun _ => ControllerMigrated) n = ControllerNonMigrated) /\
    (forall n, EvInvoke n ∈ t2 -> n ∈ ([] : list (string * InitFn)).*1 /\
                                 (fun _ => ControllerMigrated) n = ControllerMigrated) /\
    (forall n, EvInvoke n ∈ t1 -> EvInvoke n ∉ t2).
Proof.
  split; [reflexivity|].
  exact (OnStartedLeading_split_registry (example_config 1 ["*"] true true) example_env []
           (fun _ => ControllerMigrated) [] [] eq_refl).
Defined.





End ExtraFacts.
